(** * lunes-host: the login script [scripts/login.js]

    A shallow embedding of the Session Runner ([main]) and of the Notifier
    ([notifyTelegram]) of [scripts/login.js], the properties of the
    specification that are stated about them, and further properties of
    the code.

    The script is a straight-line sequence of calls to the browser, the file
    system and the chat service, wrapped in [try]/[catch]/[finally].  What
    the outside world answers is given by a [World]; what the script does is
    recorded in a trace.

    - Every awaited call, and [fs.readFileSync], may throw: the world
      decides, from everything that happened before.  [page.url()],
      [fs.existsSync] and the clock are read and never throw.
    - What a call throws is an [Error] object, as the browser, [fetch] and
      [fs] throw them: it has a name and a message, both strings, and any
      of the two may be empty.
    - [main] and [notifyTelegram] are written in a state and exception
      monad; the state is the trace and [process.exitCode].
    - Each call of [notifyTelegram] leaves an entry with its arguments in
      the trace, so that "the Notifier was called" can be said.
    - The two promises of [Promise.all] (lines 97-100) appear in the order
      in which they are started; the first cannot reject, so the whole
      rejects exactly when the click does.
    - A rejection of [main] at the top level (line 179) is an uncaught
      error: Node ends the process with status 1, whatever
      [process.exitCode] holds. *)

From Stdlib Require Import String Ascii List ZArith Bool Arith Lia.
Import ListNotations.
Open Scope string_scope.

(** ** Strings *)

Definition dq : string := String (ascii_of_nat 34) EmptyString.
Definition nl : string := String (ascii_of_nat 10) EmptyString.

Definition lowerAscii (c : ascii) : ascii :=
  let n := nat_of_ascii c in
  if (65 <=? n)%nat && (n <=? 90)%nat then ascii_of_nat (n + 32) else c.

Fixpoint toLowerCase (s : string) : string :=
  match s with
  | EmptyString => EmptyString
  | String c s' => String (lowerAscii c) (toLowerCase s')
  end.

(** [includes pat s]: [pat] occurs somewhere in [s]. *)
Fixpoint includes (pat s : string) : bool :=
  if prefix pat s then true
  else match s with
       | EmptyString => false
       | String _ s' => includes pat s'
       end.

(** A JS string used as a condition: the empty string is falsy. *)
Definition truthy (s : string) : bool :=
  match s with EmptyString => false | _ => true end.

(** [const LOGIN_URL] (line 5). *)
Definition LOGIN_URL : string := "https://ctrl.lunes.host/auth/login".

(** [/\/auth\/login/i.test(url)] (line 108): the literal occurs in [url],
    letters compared without case. *)
Definition stillOnLogin (url : string) : bool :=
  includes "/auth/login" (toLowerCase url).

(** [const screenshot = (name) => `./${name}.png`] (line 66). *)
Definition screenshot (name : string) : string := "./" ++ name ++ ".png".

(** ** The outside world: locators, calls, answers *)

(** The selectors the script hands to [page.locator]. *)
Inductive Selector : Type :=
| sel_humanCheck      (* line 73 *)
| sel_username        (* line 83 *)
| sel_password        (* line 84 *)
| sel_submit          (* line 91 *)
| sel_successHint     (* line 107 *)
| sel_serverLink      (* line 114 *)
| sel_consoleMenu     (* line 124 *)
| sel_restart         (* line 131 *)
| sel_command         (* line 140 *)
| sel_errorMsg.       (* line 158 *)

Definition selectorText (s : Selector) : string :=
  match s with
  | sel_humanCheck => "text=/Verify you are human|需要验证|安全检查|review the security/i"
  | sel_username => "input[name=" ++ dq ++ "username" ++ dq ++ "]"
  | sel_password => "input[name=" ++ dq ++ "password" ++ dq ++ "]"
  | sel_submit => "button[type=" ++ dq ++ "submit" ++ dq ++ "]"
  | sel_successHint => "text=/Dashboard|Logout|Sign out|控制台|面板/i"
  | sel_serverLink => "a[href=" ++ dq ++ "/server/71178ed1" ++ dq ++ "]"
  | sel_consoleMenu => "a[href=" ++ dq ++ "/server/71178ed1" ++ dq ++ "].active"
  | sel_restart => "button:has-text(" ++ dq ++ "Restart" ++ dq ++ ")"
  | sel_command => "input[placeholder=" ++ dq ++ "Type a command..." ++ dq ++ "]"
  | sel_errorMsg => "text=/Invalid|incorrect|错误|失败|无效/i"
  end.

Inductive Locator : Type :=
| locator (s : Selector)
| first (l : Locator).

Scheme Equality for Selector.
Scheme Equality for Locator.

Definition humanCheckText : Locator := first (locator sel_humanCheck).
Definition userInput : Locator := locator sel_username.
Definition passInput : Locator := locator sel_password.
Definition loginBtn : Locator := locator sel_submit.
Definition successHintLocator : Locator := first (locator sel_successHint).
Definition serverLink : Locator := locator sel_serverLink.
Definition consoleMenu : Locator := locator sel_consoleMenu.
Definition restartBtn : Locator := locator sel_restart.
Definition commandInput : Locator := locator sel_command.
Definition errorMsgNode : Locator := locator sel_errorMsg.

(** The two requests sent to the chat service (lines 24-32 and 36-41). *)
Inductive Request : Type :=
| sendMessage (token chat_id text : string) (disable_web_page_preview : bool)
| sendPhoto (token chat_id caption : string) (photo : list Byte.byte).

Definition requestUrl (r : Request) : string :=
  match r with
  | sendMessage token _ _ _ => "https://api.telegram.org/bot" ++ token ++ "/sendMessage"
  | sendPhoto token _ _ _ => "https://api.telegram.org/bot" ++ token ++ "/sendPhoto"
  end.

(** The calls that may throw (or reject, when awaited).  Of their
    arguments the selectors, texts, paths, keys and timeouts are kept; the
    options that do not bear on the control flow ([headless], the
    viewport, [waitUntil], [state: 'visible'], [fullPage]) are left out. *)
Inductive Op : Type :=
| chromium_launch
| browser_newContext
| context_newPage
| page_goto (url : string) (timeout : Z)
| locator_count (l : Locator)
| page_screenshot (path : string)
| locator_waitFor (l : Locator) (timeout : Z)
| locator_fill (l : Locator) (text : string)
| locator_click (l : Locator) (timeout : option Z)
| page_waitForLoadState (timeout : Z)
| page_waitForTimeout (ms : Z)
| locator_press (l : Locator) (key : string)
| locator_innerText (l : Locator)
| context_close
| browser_close
| fs_readFileSync (path : string)
| fetch (r : Request).

(** The synchronous reads that never throw. *)
Inductive Query : Type :=
| page_url
| fs_existsSync (path : string)
| Date_toISOString.

Definition Resp (o : Op) : Type :=
  match o with
  | locator_count _ => nat
  | locator_innerText _ => string
  | fs_readFileSync _ => list Byte.byte
  | _ => unit
  end.

Definition QResp (q : Query) : Type :=
  match q with
  | page_url => string
  | fs_existsSync _ => bool
  | Date_toISOString => string
  end.

(** What is thrown: an [Error] object, with its [name] ([Error],
    [TimeoutError], [TypeError], ...) and its [message]. *)
Record Exn : Type := mkExn { name : string; message : string }.

(** [new Error(message)] (line 50). *)
Definition Error (msg : string) : Exn :=
  {| name := "Error"; message := msg |}.

Inductive Outcome (A : Type) : Type :=
| Normal (a : A)
| Thrown (e : Exn).
Arguments Normal {A} a.
Arguments Thrown {A} e.

(** What the trace keeps of an answer. *)
Inductive Value : Type :=
| VUnit
| VNum (n : nat)
| VStr (s : string)
| VBool (b : bool)
| VBytes (b : list Byte.byte).

Definition inject (o : Op) : Resp o -> Value :=
  match o return Resp o -> Value with
  | locator_count _ => VNum
  | locator_innerText _ => VStr
  | fs_readFileSync _ => VBytes
  | _ => fun _ => VUnit
  end.

Definition injectQ (q : Query) : QResp q -> Value :=
  match q return QResp q -> Value with
  | page_url => VStr
  | fs_existsSync _ => VBool
  | Date_toISOString => VStr
  end.

Definition summary {o : Op} (r : Outcome (Resp o)) : Outcome Value :=
  match r with
  | Normal v => Normal (inject o v)
  | Thrown e => Thrown e
  end.

(** The trace: the calls issued with their outcome, the reads with their
    value, the lines written by [console.log], and one entry for each call of
    [notifyTelegram] with its arguments. *)
Inductive Event : Type :=
| EvCall (o : Op) (r : Outcome Value)
| EvObs (q : Query) (v : Value)
| EvNotify (ok : bool) (stage msg : string) (screenshotPath : option string)
| EvLog (line : string).

(** The environment of one run: the process environment, and the answers of
    the browser, the file system and the chat service, which may depend on
    everything that happened before. *)
Record World : Type := {
  env : string -> option string;
  respond : list Event -> forall o : Op, Outcome (Resp o);
  observe : list Event -> forall q : Query, QResp q
}.

(** ** The state of a run and its monad *)

Record St : Type := mkSt {
  trace : list Event;
  exitCode : option Z          (* process.exitCode *)
}.

Definition init : St := {| trace := []; exitCode := None |}.

Definition record (ev : Event) (st : St) : St :=
  {| trace := trace st ++ [ev]; exitCode := exitCode st |}.

Definition M (A : Type) : Type := St -> St * Outcome A.

Definition ret {A} (a : A) : M A := fun st => (st, Normal a).

Definition throw {A} (e : Exn) : M A := fun st => (st, Thrown e).

Definition bind {A B} (m : M A) (k : A -> M B) : M B :=
  fun st =>
    match m st with
    | (st', Normal a) => k a st'
    | (st', Thrown e) => (st', Thrown e)
    end.

Declare Scope js_scope.
Delimit Scope js_scope with js.
Notation "x <- m ;; k" := (bind m (fun x => k))
  (at level 61, m at next level, right associativity) : js_scope.
Notation "m ;; k" := (bind m (fun _ => k))
  (at level 61, right associativity) : js_scope.
Open Scope js_scope.

(** [try { m } catch (e) { h e }] *)
Definition try_catch {A} (m : M A) (h : Exn -> M A) : M A :=
  fun st =>
    match m st with
    | (st', Normal a) => (st', Normal a)
    | (st', Thrown e) => h e st'
    end.

(** [try { m } finally { f }]: [f] runs however [m] ends; when [f] throws,
    its exception replaces the outcome of [m]. *)
Definition try_finally {A} (m : M A) (f : M unit) : M A :=
  fun st =>
    match m st with
    | (st', r) =>
        match f st' with
        | (st'', Normal _) => (st'', r)
        | (st'', Thrown e) => (st'', Thrown e)
        end
    end.

(** [process.exitCode = c] *)
Definition setExitCode (c : Z) : M unit :=
  fun st => ({| trace := trace st; exitCode := Some c |}, Normal tt).

Definition emit (ev : Event) : M unit :=
  fun st => (record ev st, Normal tt).

(** [console.log(line)] *)
Definition console_log (line : string) : M unit := emit (EvLog line).

(** The lines of the Notifier (lines 13 and 44) and the caption of its
    image (line 39). *)
Definition warnUnset : string :=
  "[WARN] TELEGRAM_BOT_TOKEN 或 TELEGRAM_CHAT_ID 未设置，跳过通知".

Definition warnFailed (e : Exn) : string :=
  "[WARN] Telegram 通知失败： " ++ message e.

Definition caption (stage : string) : string :=
  "Lunes 自动操作截图（" ++ stage ++ "）".

Section Script.

Variable W : World.

(** A call: the world answers from the trace so far, the call and its
    outcome are recorded. *)
Definition call (o : Op) : M (Resp o) :=
  fun st =>
    let r := respond W (trace st) o in
    (record (EvCall o (summary r)) st, r).

Definition read (q : Query) : M (QResp q) :=
  fun st =>
    let v := observe W (trace st) q in
    (record (EvObs q (injectQ q v)) st, Normal v).

(** The variable [name] is missing or empty. *)
Definition unset (name : string) : Prop :=
  env W name = None \/ env W name = Some "".

(** [process.env[name]] as a condition: unset and empty are both falsy. *)
Definition envTruthy (name : string) : option string :=
  match env W name with
  | Some v => if truthy v then Some v else None
  | None => None
  end.

(** *** [notifyTelegram] (lines 8-46) *)

Definition notifyText (ok : bool) (stage msg now : string) : string :=
  String.concat nl
    (filter truthy
       [ "🔔 Lunes 自动操作：" ++ (if ok then "✅ 成功" else "❌ 失败");
         "阶段：" ++ stage;
         if truthy msg then "信息：" ++ msg else "";
         "时间：" ++ now ]).

Definition pathGiven (screenshotPath : option string) : option string :=
  match screenshotPath with
  | Some p => if truthy p then Some p else None
  | None => None
  end.

Definition notifyTelegram (ok : bool) (stage msg : string)
    (screenshotPath : option string) : M unit :=
  emit (EvNotify ok stage msg screenshotPath) ;;
  try_catch
    (match envTruthy "TELEGRAM_BOT_TOKEN", envTruthy "TELEGRAM_CHAT_ID" with
     | Some token, Some chatId =>
         now <- read Date_toISOString ;;
         call (fetch (sendMessage token chatId (notifyText ok stage msg now) true)) ;;
         match pathGiven screenshotPath with
         | Some p =>
             present <- read (fs_existsSync p) ;;
             if present : bool then
               photo <- call (fs_readFileSync p) ;;
               call (fetch (sendPhoto token chatId (caption stage) photo))
             else ret tt
         | None => ret tt
         end
     | _, _ => console_log warnUnset
     end)
    (fun e => console_log (warnFailed e)).

(** *** [envOrThrow] (lines 48-52) *)

Definition envOrThrow (name : string) : M string :=
  match envTruthy name with
  | Some v => ret v
  | None => throw (Error ("环境变量 " ++ name ++ " 未设置"))
  end.

(** *** [main] (lines 54-177) *)

Local Open Scope Z_scope.

(** [p.catch(() => {})]: a rejection of [p] is discarded. *)
Definition swallow (m : M unit) : M unit := try_catch m (fun _ => ret tt).

(** [String(e)] for an [Error] object, which is [Error.prototype.toString]:
    the message when the name is empty, the name when the message is
    empty, and otherwise the name, a colon and the message. *)
Definition String_of (e : Exn) : string :=
  if truthy (name e) then
    if truthy (message e) then name e ++ ": " ++ message e else name e
  else message e.

(** [a || b] on strings. *)
Definition orElse (a b : string) : string := if truthy a then a else b.

(** Lines 75-79: the branch taken when the challenge marker is on the page. *)
Definition humanCheckExit : M unit :=
  let sp := screenshot "01-human-check" in
  call (page_screenshot sp) ;;
  notifyTelegram false "打开登录页" "检测到人机验证页面" (Some sp) ;;
  setExitCode 2.

(** Lines 111-154: the branch taken when the login is judged successful. *)
Definition loginSucceeded (url spAfter : string) : M unit :=
  notifyTelegram true "登录成功" ("当前 URL：" ++ url) (Some spAfter) ;;
  call (locator_waitFor serverLink 20000) ;;
  call (locator_click serverLink (Some 10000)) ;;
  call (page_waitForLoadState 30000) ;;
  let spServer := screenshot "04-server-page" in
  call (page_screenshot spServer) ;;
  notifyTelegram true "进入服务器页面" "已成功打开服务器详情" (Some spServer) ;;
  call (locator_waitFor consoleMenu 15000) ;;
  call (locator_click consoleMenu (Some 5000)) ;;
  call (page_waitForLoadState 10000) ;;
  call (locator_waitFor restartBtn 15000) ;;
  call (locator_click restartBtn None) ;;
  notifyTelegram true "点击 Restart" "VPS 正在重启" None ;;
  call (page_waitForTimeout 10000) ;;
  call (locator_waitFor commandInput 20000) ;;
  call (locator_fill commandInput "working properly") ;;
  call (locator_press commandInput "Enter") ;;
  call (page_waitForTimeout 5000) ;;
  let spCommand := screenshot "05-command-executed" in
  call (page_screenshot spCommand) ;;
  notifyTelegram true "命令执行完成" "restart.sh 已执行" (Some spCommand) ;;
  setExitCode 0.

(** Line 164: the message of the failure notification. *)
Definition failureMessage (errorMsg : string) : string :=
  if truthy errorMsg then "疑似失败（" ++ errorMsg ++ "）" else "仍在登录页".

(** Lines 157-167: the branch taken otherwise. *)
Definition loginFailed (spAfter : string) : M unit :=
  hasError <- call (locator_count errorMsgNode) ;;
  errorMsg <- (if (0 <? hasError)%nat
               then try_catch (call (locator_innerText (first errorMsgNode)))
                              (fun _ => ret "")
               else ret "") ;;
  notifyTelegram false "登录失败" (failureMessage errorMsg) (Some spAfter) ;;
  setExitCode 1.

(** Line 110: [!stillOnLogin || successHint > 0]. *)
Definition loginJudgedOk (url : string) (successHint : nat) : bool :=
  negb (stillOnLogin url) || (0 <? successHint)%nat.

(** Lines 69-167: the body of the [try].  The two [return]s of the source
    end the body; here the rest of the body is the other branch. *)
Definition workflow (username password : string) : M unit :=
  call (page_goto LOGIN_URL 60000) ;;
  challenge <- call (locator_count humanCheckText) ;;
  if (0 <? challenge)%nat then humanCheckExit
  else
    call (locator_waitFor userInput 30000) ;;
    call (locator_waitFor passInput 30000) ;;
    call (locator_fill userInput username) ;;
    call (locator_fill passInput password) ;;
    call (locator_waitFor loginBtn 15000) ;;
    let spBefore := screenshot "02-before-submit" in
    call (page_screenshot spBefore) ;;
    (* Promise.all: both calls are started in this order; only a rejection
       of the click rejects the whole *)
    swallow (call (page_waitForLoadState 30000)) ;;
    call (locator_click loginBtn (Some 10000)) ;;
    let spAfter := screenshot "03-after-submit" in
    call (page_screenshot spAfter) ;;
    url <- read page_url ;;
    successHint <- call (locator_count successHintLocator) ;;
    if loginJudgedOk url successHint then loginSucceeded url spAfter
    else loginFailed spAfter.

(** Lines 168-172: the [catch] block. *)
Definition handler (e : Exn) : M unit :=
  let sp := screenshot "99-error" in
  swallow (call (page_screenshot sp)) ;;
  present <- read (fs_existsSync sp) ;;
  notifyTelegram false "异常" (orElse (message e) (String_of e))
    (if present : bool then Some sp else None) ;;
  setExitCode 1.

(** Lines 173-176: the [finally] block. *)
Definition teardown : M unit :=
  call context_close ;;
  call browser_close.

Definition main : M unit :=
  username <- envOrThrow "LUNES_USERNAME" ;;
  password <- envOrThrow "LUNES_PASSWORD" ;;
  call chromium_launch ;;
  call browser_newContext ;;
  call context_newPage ;;
  try_finally (try_catch (workflow username password) handler) teardown.

End Script.

(** Line 179, [await main()] at the top level of the module: the events of
    the run, and the status the process ends with.  A rejection of [main] is
    an uncaught error, which ends the process with status 1; otherwise the
    status is [process.exitCode], 0 when it was never set. *)
Definition run (W : World) : St * Outcome unit := main W init.

Definition events (W : World) : list Event := trace (fst (run W)).

Definition exitStatus (W : World) : Z :=
  match run W with
  | (st, Normal _) => match exitCode st with Some c => c | None => 0%Z end
  | (_, Thrown _) => 1%Z
  end.

(** ** Reading a trace *)

(** The values [f] picks from the events of a trace, in order. *)
Definition project {A} (f : Event -> option A) (tr : list Event) : list A :=
  flat_map (fun ev => match f ev with Some a => [a] | None => [] end) tr.

(** The events that [notifyTelegram] produces after its own entry: its reads
    of the clock and of the file system, its calls to the chat service, its
    log lines. *)
Definition isChatEvent (ev : Event) : bool :=
  match ev with
  | EvCall (fetch _) _ => true
  | EvCall (fs_readFileSync _) _ => true
  | EvObs (fs_existsSync _) _ => true
  | EvObs Date_toISOString _ => true
  | EvLog _ => true
  | _ => false
  end.

Definition Chat (d : list Event) : Prop := Forall (fun ev => isChatEvent ev = true) d.

(** The requests handed to [fetch], in order, whatever their outcome. *)
Definition fetches : list Event -> list Request :=
  project (fun ev => match ev with EvCall (fetch r) _ => Some r | _ => None end).

Definition logLines : list Event -> list string :=
  project (fun ev => match ev with EvLog l => Some l | _ => None end).

(** The calls to the browser (and nothing of the Notifier). *)
Definition isBrowserOp (o : Op) : bool :=
  match o with
  | fetch _ | fs_readFileSync _ => false
  | _ => true
  end.

Definition browserCalls : list Event -> list Op :=
  project (fun ev => match ev with
                     | EvCall o _ => if isBrowserOp o then Some o else None
                     | _ => None
                     end).

(** The calls of [notifyTelegram]: outcome flag, stage, screenshot path. *)
Definition notifications : list Event -> list (bool * string * option string) :=
  project (fun ev => match ev with
                     | EvNotify ok stage _ sp => Some (ok, stage, sp)
                     | _ => None
                     end).

(** The screenshot files written: the [page.screenshot] calls that returned. *)
Definition screenshotsWritten : list Event -> list string :=
  project (fun ev => match ev with
                     | EvCall (page_screenshot p) (Normal _) => Some p
                     | _ => None
                     end).

(** The value of [page.url()] at line 106, when the run got there. *)
Definition urlRead (tr : list Event) : option string :=
  hd_error (project (fun ev => match ev with
                               | EvObs page_url (VStr u) => Some u
                               | _ => None
                               end) tr).

(** What [count()] returned on locator [l], when the call was made and
    returned: the challenge marker at line 74, the logged-in marker at
    line 107. *)
Definition countReturned (l : Locator) (tr : list Event) : option nat :=
  hd_error (project (fun ev => match ev with
                               | EvCall (locator_count l') (Normal (VNum n)) =>
                                   if Locator_beq l l' then Some n else None
                               | _ => None
                               end) tr).

Definition locatorOf (o : Op) : option Locator :=
  match o with
  | locator_count l | locator_waitFor l _ | locator_fill l _
  | locator_click l _ | locator_press l _ | locator_innerText l => Some l
  | _ => None
  end.

(** The calls of the server, console, restart and command steps: they are
    the calls on these four locators. *)
Definition isDownstreamOp (o : Op) : bool :=
  match locatorOf o with
  | Some (locator (sel_serverLink | sel_consoleMenu | sel_restart | sel_command)) => true
  | _ => false
  end.

Definition downstreamCalls : list Event -> list Op :=
  project (fun ev => match ev with
                     | EvCall o _ => if isDownstreamOp o then Some o else None
                     | _ => None
                     end).

(** The texts filled into input fields. *)
Definition fills : list Event -> list (Locator * string) :=
  project (fun ev => match ev with
                     | EvCall (locator_fill l t) _ => Some (l, t)
                     | _ => None
                     end).

(** The outcomes of the calls of [context.close()] and of
    [browser.close()]. *)
Definition contextCloses : list Event -> list (Outcome Value) :=
  project (fun ev => match ev with EvCall context_close r => Some r | _ => None end).

Definition browserCloses : list Event -> list (Outcome Value) :=
  project (fun ev => match ev with EvCall browser_close r => Some r | _ => None end).

(** The success notification of line 111 was made. *)
Definition successNotified (tr : list Event) : bool :=
  existsb (fun ev => match ev with
                     | EvNotify true stage _ _ => String.eqb stage "登录成功"
                     | _ => false
                     end) tr.

(** A call of the server, console, restart or command steps was made. *)
Definition downstreamBegun (tr : list Event) : bool :=
  existsb (fun ev => match ev with
                     | EvCall o _ => isDownstreamOp o
                     | _ => false
                     end) tr.

(** The error text read at line 160: what [innerText()] returned, and the
    empty string when it was not called or threw. *)
Definition errorMsgRead (tr : list Event) : string :=
  match project (fun ev => match ev with
                           | EvCall (locator_innerText _) (Normal (VStr t)) => Some t
                           | _ => None
                           end) tr with
  | t :: _ => t
  | [] => ""
  end.

(** The [catch] block was entered: it starts with the screenshot
    [99-error], which no other place takes. *)
Definition handlerEntered (tr : list Event) : bool :=
  existsb (fun ev => match ev with
                     | EvCall (page_screenshot p) _ => String.eqb p (screenshot "99-error")
                     | _ => false
                     end) tr.

(** [m] only adds events to the trace, and every event it adds satisfies
    [P]. *)
Definition Emits (P : Event -> Prop) {A} (m : M A) : Prop :=
  forall st, exists d, trace (fst (m st)) = (trace st ++ d)%list /\ Forall P d.

(** [m] keeps the property [I] of [process.exitCode]. *)
Definition Keeps (I : option Z -> Prop) {A} (m : M A) : Prop :=
  forall st, I (exitCode st) -> I (exitCode (fst (m st))).

(** The values [process.exitCode] takes: unset, 0, 1 or 2. *)
Definition knownCode (c : option Z) : Prop :=
  c = None \/ c = Some 0%Z \/ c = Some 1%Z \/ c = Some 2%Z.

(** The calls of a trace that threw. *)
Definition thrownBy : list Event -> list Exn :=
  project (fun ev => match ev with EvCall _ (Thrown e) => Some e | _ => None end).

(** The browser calls of a trace that threw. *)
Definition thrownByBrowser : list Event -> list (Op * Exn) :=
  project (fun ev => match ev with
                     | EvCall o (Thrown e) => if isBrowserOp o then Some (o, e) else None
                     | _ => None
                     end).

(** ** The steps of a run *)

(** What the Session Runner does, step by step: its calls to the browser
    and its calls of the Notifier. *)
Inductive Step : Type :=
| Called (o : Op)
| Notified (ok : bool) (stage : string) (screenshotPath : option string).

Definition steps : list Event -> list Step :=
  project (fun ev => match ev with
                     | EvCall o _ => if isBrowserOp o then Some (Called o) else None
                     | EvNotify ok stage _ sp => Some (Notified ok stage sp)
                     | _ => None
                     end).

(** Lines 58-104, for a page without challenge. *)
Definition loginSteps (username password : string) : list Step :=
  [ Called chromium_launch;
    Called browser_newContext;
    Called context_newPage;
    Called (page_goto LOGIN_URL 60000);
    Called (locator_count humanCheckText);
    Called (locator_waitFor userInput 30000);
    Called (locator_waitFor passInput 30000);
    Called (locator_fill userInput username);
    Called (locator_fill passInput password);
    Called (locator_waitFor loginBtn 15000);
    Called (page_screenshot (screenshot "02-before-submit"));
    Called (page_waitForLoadState 30000);
    Called (locator_click loginBtn (Some 10000%Z));
    Called (page_screenshot (screenshot "03-after-submit"));
    Called (locator_count successHintLocator) ].

(** Lines 113-151: the server page, the console, the restart, the command,
    in the order of the source. *)
Definition downstreamSteps : list Step :=
  [ (* the server page *)
    Called (locator_waitFor serverLink 20000);
    Called (locator_click serverLink (Some 10000%Z));
    Called (page_waitForLoadState 30000);
    Called (page_screenshot (screenshot "04-server-page"));
    Notified true "进入服务器页面" (Some (screenshot "04-server-page"));
    (* the console *)
    Called (locator_waitFor consoleMenu 15000);
    Called (locator_click consoleMenu (Some 5000%Z));
    Called (page_waitForLoadState 10000);
    (* the restart *)
    Called (locator_waitFor restartBtn 15000);
    Called (locator_click restartBtn None);
    Notified true "点击 Restart" None;
    Called (page_waitForTimeout 10000);
    (* the command *)
    Called (locator_waitFor commandInput 20000);
    Called (locator_fill commandInput "working properly");
    Called (locator_press commandInput "Enter");
    Called (page_waitForTimeout 5000);
    Called (page_screenshot (screenshot "05-command-executed"));
    Notified true "命令执行完成" (Some (screenshot "05-command-executed")) ].

Fixpoint takeWhile {A} (f : A -> bool) (l : list A) : list A :=
  match l with
  | [] => []
  | x :: l' => if f x then x :: takeWhile f l' else []
  end.

(** A step of the [catch] or of the [finally] block. *)
Definition isExitStep (s : Step) : bool :=
  match s with
  | Called (page_screenshot p) => String.eqb p (screenshot "99-error")
  | Called context_close | Called browser_close => true
  | Notified ok _ _ => negb ok
  | Called _ => false
  end.

(** The steps performed after the success notification of line 111 and
    before the [catch] or [finally] block takes over. *)
Definition downstreamPerformed (tr : list Event) : list Step :=
  takeWhile (fun s => negb (isExitStep s))
    (skipn (S (length (loginSteps "" ""))) (steps tr)).

(** ** The run as the browser sees it *)

(** The events of the Session Runner proper: its calls to the browser and
    its reading of the URL.  The rest of the trace belongs to the Notifier
    (its entries, the clock, the chat service, the files it looks for and
    reads, its log lines). *)
Definition isRunnerEvent (ev : Event) : bool :=
  match ev with
  | EvCall o _ => isBrowserOp o
  | EvObs page_url _ => true
  | _ => false
  end.

Definition runnerView (tr : list Event) : list Event := filter isRunnerEvent tr.

(** Two worlds with the same panel credentials whose browsers answer alike
    whenever they were asked the same things before; the chat credentials,
    the chat service, the clock and the file system may differ. *)
Definition SameBrowser (W1 W2 : World) : Prop :=
  envTruthy W1 "LUNES_USERNAME" = envTruthy W2 "LUNES_USERNAME"
  /\ envTruthy W1 "LUNES_PASSWORD" = envTruthy W2 "LUNES_PASSWORD"
  /\ (forall h1 h2 o,
        isBrowserOp o = true -> runnerView h1 = runnerView h2 ->
        respond W1 h1 o = respond W2 h2 o)
  /\ (forall h1 h2,
        runnerView h1 = runnerView h2 ->
        observe W1 h1 page_url = observe W2 h2 page_url).

(** [m1] and [m2] do the same to the browser and to [process.exitCode], and
    end alike. *)
Definition Sim {A} (m1 m2 : M A) : Prop :=
  forall st1 st2,
    runnerView (trace st1) = runnerView (trace st2) ->
    exitCode st1 = exitCode st2 ->
    runnerView (trace (fst (m1 st1))) = runnerView (trace (fst (m2 st2)))
    /\ exitCode (fst (m1 st1)) = exitCode (fst (m2 st2))
    /\ snd (m1 st1) = snd (m2 st2).

(** The same, for two computations that return, maybe different values. *)
Definition SimAny {A} (m1 m2 : M A) : Prop :=
  forall st1 st2,
    runnerView (trace st1) = runnerView (trace st2) ->
    exitCode st1 = exitCode st2 ->
    runnerView (trace (fst (m1 st1))) = runnerView (trace (fst (m2 st2)))
    /\ exitCode (fst (m1 st1)) = exitCode (fst (m2 st2))
    /\ exists a b, snd (m1 st1) = Normal a /\ snd (m2 st2) = Normal b.

(** ** What one call of [notifyTelegram] leaves in the trace *)

(** The events a call of [notifyTelegram] adds after its entry. *)
Definition notifyEvents (W : World) (ok : bool) (stage msg : string)
    (sp : option string) (st : St) : list Event :=
  skipn (S (length (trace st))) (trace (fst (notifyTelegram W ok stage msg sp st))).

(** The seven ways a call of [notifyTelegram] can go. *)
Inductive Delivery (W : World) (ok : bool) (stage msg : string)
    (sp : option string) : list Event -> Prop :=
| delivery_skipped :
    envTruthy W "TELEGRAM_BOT_TOKEN" = None \/ envTruthy W "TELEGRAM_CHAT_ID" = None ->
    Delivery W ok stage msg sp [EvLog warnUnset]
| delivery_text_failed token chatId now e :
    envTruthy W "TELEGRAM_BOT_TOKEN" = Some token ->
    envTruthy W "TELEGRAM_CHAT_ID" = Some chatId ->
    Delivery W ok stage msg sp
      [EvObs Date_toISOString (VStr now);
       EvCall (fetch (sendMessage token chatId (notifyText ok stage msg now) true)) (Thrown e);
       EvLog (warnFailed e)]
| delivery_text_only token chatId now :
    envTruthy W "TELEGRAM_BOT_TOKEN" = Some token ->
    envTruthy W "TELEGRAM_CHAT_ID" = Some chatId ->
    pathGiven sp = None ->
    Delivery W ok stage msg sp
      [EvObs Date_toISOString (VStr now);
       EvCall (fetch (sendMessage token chatId (notifyText ok stage msg now) true)) (Normal VUnit)]
| delivery_file_missing token chatId now p :
    envTruthy W "TELEGRAM_BOT_TOKEN" = Some token ->
    envTruthy W "TELEGRAM_CHAT_ID" = Some chatId ->
    pathGiven sp = Some p ->
    Delivery W ok stage msg sp
      [EvObs Date_toISOString (VStr now);
       EvCall (fetch (sendMessage token chatId (notifyText ok stage msg now) true)) (Normal VUnit);
       EvObs (fs_existsSync p) (VBool false)]
| delivery_file_unreadable token chatId now p e :
    envTruthy W "TELEGRAM_BOT_TOKEN" = Some token ->
    envTruthy W "TELEGRAM_CHAT_ID" = Some chatId ->
    pathGiven sp = Some p ->
    Delivery W ok stage msg sp
      [EvObs Date_toISOString (VStr now);
       EvCall (fetch (sendMessage token chatId (notifyText ok stage msg now) true)) (Normal VUnit);
       EvObs (fs_existsSync p) (VBool true);
       EvCall (fs_readFileSync p) (Thrown e);
       EvLog (warnFailed e)]
| delivery_photo_sent token chatId now p photo :
    envTruthy W "TELEGRAM_BOT_TOKEN" = Some token ->
    envTruthy W "TELEGRAM_CHAT_ID" = Some chatId ->
    pathGiven sp = Some p ->
    Delivery W ok stage msg sp
      [EvObs Date_toISOString (VStr now);
       EvCall (fetch (sendMessage token chatId (notifyText ok stage msg now) true)) (Normal VUnit);
       EvObs (fs_existsSync p) (VBool true);
       EvCall (fs_readFileSync p) (Normal (VBytes photo));
       EvCall (fetch (sendPhoto token chatId (caption stage) photo)) (Normal VUnit)]
| delivery_photo_failed token chatId now p photo e :
    envTruthy W "TELEGRAM_BOT_TOKEN" = Some token ->
    envTruthy W "TELEGRAM_CHAT_ID" = Some chatId ->
    pathGiven sp = Some p ->
    Delivery W ok stage msg sp
      [EvObs Date_toISOString (VStr now);
       EvCall (fetch (sendMessage token chatId (notifyText ok stage msg now) true)) (Normal VUnit);
       EvObs (fs_existsSync p) (VBool true);
       EvCall (fs_readFileSync p) (Normal (VBytes photo));
       EvCall (fetch (sendPhoto token chatId (caption stage) photo)) (Thrown e);
       EvLog (warnFailed e)].

(** ** The [try] of [main], seen from outside *)

Section Guarded.

Variable W : World.

(** A body [m] run where [workflow] runs: inside the [try], with the
    [catch] and the [finally] of [main] around it. *)
Definition guarded (m : M unit) : M unit :=
  try_finally (try_catch m (handler W)) (teardown W).

(** What follows a throw inside the [try]: the [catch] block, then the
    [finally] block. *)
Definition abort (e : Exn) : M unit := try_finally (handler W e) (teardown W).

(** What follows the normal end of the [try]: the [finally] block. *)
Definition finish : M unit := try_finally (ret tt) (teardown W).

(** The rest of the [try] from line 107 on, once [page.url()] gave [url]. *)
Definition fromJudgement (url : string) : M unit :=
  successHint <- call W (locator_count successHintLocator) ;;
  if loginJudgedOk url successHint
  then loginSucceeded W url (screenshot "03-after-submit")
  else loginFailed W (screenshot "03-after-submit").

End Guarded.

(** How the [finally] block ended after a [try] that ended as [r]: the
    events it left, and how the whole ends. *)
Inductive Closed (r : Outcome unit) : list Event -> Outcome unit -> Prop :=
| closed_both :
    Closed r [EvCall context_close (Normal VUnit); EvCall browser_close (Normal VUnit)] r
| closed_context_threw e :
    Closed r [EvCall context_close (Thrown e)] (Thrown e)
| closed_browser_threw e :
    Closed r [EvCall context_close (Normal VUnit); EvCall browser_close (Thrown e)] (Thrown e).

(** ** The events of the run up to line 106 *)

Definition setupEvents : list Event :=
  [ EvCall chromium_launch (Normal VUnit);
    EvCall browser_newContext (Normal VUnit);
    EvCall context_newPage (Normal VUnit) ].

(** Lines 70-104 when no challenge is shown and no call throws; [idle] is
    how the discarded wait for network idle ended. *)
Definition loginEvents (username password : string) (idle : Outcome unit) : list Event :=
  [ EvCall (page_goto LOGIN_URL 60000) (Normal VUnit);
    EvCall (locator_count humanCheckText) (Normal (VNum 0));
    EvCall (locator_waitFor userInput 30000) (Normal VUnit);
    EvCall (locator_waitFor passInput 30000) (Normal VUnit);
    EvCall (locator_fill userInput username) (Normal VUnit);
    EvCall (locator_fill passInput password) (Normal VUnit);
    EvCall (locator_waitFor loginBtn 15000) (Normal VUnit);
    EvCall (page_screenshot (screenshot "02-before-submit")) (Normal VUnit);
    EvCall (page_waitForLoadState 30000) (@summary (page_waitForLoadState 30000) idle);
    EvCall (locator_click loginBtn (Some 10000%Z)) (Normal VUnit);
    EvCall (page_screenshot (screenshot "03-after-submit")) (Normal VUnit) ].

(** The first events of the [catch] block (lines 169-171): [shot] is how
    the screenshot ended, [present] whether the file is on disk. *)
Definition handlerEvents (e : Exn) (shot : Outcome Value) (present : bool) : list Event :=
  [ EvCall (page_screenshot (screenshot "99-error")) shot;
    EvObs (fs_existsSync (screenshot "99-error")) (VBool present);
    EvNotify false "异常" (orElse (message e) (String_of e))
      (if present then Some (screenshot "99-error") else None) ].

(** ** Four sentences of the specification, as they are stated *)

(** C2 as stated: with both credentials, no challenge and a URL off the
    login path, the run ends with status 0, five screenshot files and five
    notifications, each with its screenshot. *)
Definition stated_C2 (W : World) : Prop :=
  forall username password u,
    envTruthy W "LUNES_USERNAME" = Some username ->
    envTruthy W "LUNES_PASSWORD" = Some password ->
    countReturned humanCheckText (events W) = Some 0%nat ->
    urlRead (events W) = Some u ->
    stillOnLogin u = false ->
    exitStatus W = 0%Z
    /\ length (screenshotsWritten (events W)) = 5%nat
    /\ length (notifications (events W)) = 5%nat
    /\ Forall (fun n => snd n <> None) (notifications (events W)).

(** C3 as stated: with the challenge marker on the login page, the
    screenshot is taken, a failure is notified, the status is 2 and no field
    is filled. *)
Definition stated_C3 (W : World) : Prop :=
  forall n,
    countReturned humanCheckText (events W) = Some n ->
    (0 < n)%nat ->
    In (screenshot "01-human-check") (screenshotsWritten (events W))
    /\ (exists stage sp, In (false, stage, sp) (notifications (events W)))
    /\ exitStatus W = 2%Z
    /\ fills (events W) = [].

(** C5 as stated: after a login judged successful, all the downstream
    steps are performed, in their order. *)
Definition stated_C5 (W : World) : Prop :=
  forall u h,
    urlRead (events W) = Some u ->
    countReturned successHintLocator (events W) = Some h ->
    stillOnLogin u = false \/ (0 < h)%nat ->
    downstreamPerformed (events W) = downstreamSteps.

(** C6 as stated: once the browser is launched, the context and the
    browser are each closed exactly once. *)
Definition stated_C6 (W : World) : Prop :=
  In (EvCall chromium_launch (Normal VUnit)) (events W) ->
  length (contextCloses (events W)) = 1%nat
  /\ length (browserCloses (events W)) = 1%nat.

(** ** Some worlds *)

Definition envOf (l : list (string * string)) (name : string) : option string :=
  match find (fun kv => String.eqb (fst kv) name) l with
  | Some kv => Some (snd kv)
  | None => None
  end.

(** The answer of a call that returns: [counts] for [count()], nothing to
    say for the rest. *)
Definition answer (counts : Locator -> nat) (o : Op) : Resp o :=
  match o return Resp o with
  | locator_count l => counts l
  | locator_innerText _ => ""
  | fs_readFileSync _ => []
  | _ => tt
  end.

(** A world that answers every call the same way at any time: the calls in
    [failing] throw, the others return. *)
Definition worldOf (vars : list (string * string)) (failing : Op -> bool)
    (counts : Locator -> nat) (url : string) (onDisk : string -> bool) : World :=
  {| env := envOf vars;
     respond := fun _ o =>
       if failing o then Thrown (Error "fault") else Normal (answer counts o);
     observe := fun _ q =>
       match q return QResp q with
       | page_url => url
       | fs_existsSync p => onDisk p
       | Date_toISOString => "2025-01-01T00:00:00.000Z"
       end |}.

Definition credentials : list (string * string) :=
  [("LUNES_USERNAME", "u"); ("LUNES_PASSWORD", "p")].

Definition chatCredentials : list (string * string) :=
  [("TELEGRAM_BOT_TOKEN", "t"); ("TELEGRAM_CHAT_ID", "c")].

(** Everything works: no challenge, the panel redirects to its home page. *)
Definition happyWorld : World :=
  worldOf (credentials ++ chatCredentials) (fun _ => false) (fun _ => 0%nat)
    "https://ctrl.lunes.host/" (fun _ => true).

(** No credentials at all. *)
Definition bareWorld : World :=
  worldOf [] (fun _ => false) (fun _ => 0%nat) LOGIN_URL (fun _ => false).

(** The panel stays on the login page and shows an error text. *)
Definition rejectedWorld : World :=
  worldOf (credentials ++ chatCredentials) (fun _ => false)
    (fun l => if Locator_beq l errorMsgNode then 1%nat else 0%nat)
    LOGIN_URL (fun _ => true).

Definition isChallenge (l : Locator) : nat :=
  if Locator_beq l humanCheckText then 1%nat else 0%nat.

(** The login page shows the challenge. *)
Definition challengeWorld : World :=
  worldOf (credentials ++ chatCredentials) (fun _ => false) isChallenge
    LOGIN_URL (fun _ => true).

(** The login page shows the challenge, and the screenshot of it cannot be
    taken. *)
Definition challengeNoShotWorld : World :=
  worldOf (credentials ++ chatCredentials)
    (fun o => match o with
              | page_screenshot p => String.eqb p (screenshot "01-human-check")
              | _ => false
              end)
    isChallenge LOGIN_URL (fun p => String.eqb p (screenshot "99-error")).

(** The browser starts, but no context can be had. *)
Definition noContextWorld : World :=
  worldOf (credentials ++ chatCredentials)
    (fun o => match o with browser_newContext => true | _ => false end)
    (fun _ => 0%nat) LOGIN_URL (fun _ => true).

(** Everything works, except that closing the context throws. *)
Definition closeThrowsWorld : World :=
  worldOf (credentials ++ chatCredentials)
    (fun o => match o with context_close => true | _ => false end)
    (fun _ => 0%nat) "https://ctrl.lunes.host/" (fun _ => true).

(** The login works, but the link of the server is not on the page. *)
Definition noServerWorld : World :=
  worldOf (credentials ++ chatCredentials)
    (fun o => match o with
              | locator_waitFor (locator sel_serverLink) _ => true
              | _ => false
              end)
    (fun _ => 0%nat) "https://ctrl.lunes.host/" (fun _ => true).

(** Everything works in the browser, but the chat service cannot be
    reached and no file is found on disk. *)
Definition chatDownWorld : World :=
  worldOf (credentials ++ chatCredentials)
    (fun o => match o with fetch _ => true | _ => false end)
    (fun _ => 0%nat) "https://ctrl.lunes.host/" (fun _ => false).

(** ** The scripts of a run *)

(** The step an event stands for, if any: [steps] keeps these. *)
Definition stepOf (ev : Event) : option Step :=
  match ev with
  | EvCall o _ => if isBrowserOp o then Some (Called o) else None
  | EvNotify ok stage _ sp => Some (Notified ok stage sp)
  | _ => None
  end.

(** Lines 58-79, when the challenge marker is on the login page. *)
Definition challengeScript : list Step :=
  [ Called chromium_launch;
    Called browser_newContext;
    Called context_newPage;
    Called (page_goto LOGIN_URL 60000);
    Called (locator_count humanCheckText);
    Called (page_screenshot (screenshot "01-human-check"));
    Notified false "打开登录页" (Some (screenshot "01-human-check")) ].

(** Lines 58-153, when the login is judged successful. *)
Definition successScript (username password : string) : list Step :=
  (loginSteps username password
   ++ [Notified true "登录成功" (Some (screenshot "03-after-submit"))]
   ++ downstreamSteps)%list.

(** Lines 58-110 and 157-167, when the login is not judged successful;
    [withText] tells whether an error text was counted, so that
    [innerText()] is called. *)
Definition failureScript (username password : string) (withText : bool) : list Step :=
  (loginSteps username password
   ++ [Called (locator_count errorMsgNode)]
   ++ (if withText then [Called (locator_innerText (first errorMsgNode))] else [])
   ++ [Notified false "登录失败" (Some (screenshot "03-after-submit"))])%list.

(** The four ways through [main] when nothing throws, each with the value
    it gives to [process.exitCode]. *)
Definition scripts (username password : string) : list (list Step * Z) :=
  [ (challengeScript, 2%Z);
    (successScript username password, 0%Z);
    (failureScript username password false, 1%Z);
    (failureScript username password true, 1%Z) ].

(** The steps of the [catch] block (lines 169-171). *)
Definition catchSteps (sp : option string) : list Step :=
  [ Called (page_screenshot (screenshot "99-error")); Notified false "异常" sp ].

(** A plan: the complete step lists a body of the [try] may perform, each
    with the exit code set at its end. *)
Definition Plan : Type := list Step -> Z -> Prop.

Definition finished (c : Z) : Plan := fun l c' => l = [] /\ c' = c.

Definition after (s : Step) (S : Plan) : Plan :=
  fun l c => exists l', l = s :: l' /\ S l' c.

Definition either (S1 S2 : Plan) : Plan := fun l c => S1 l c \/ S2 l c.

(** ** The rejections the script does not discard *)

(** The script discards the rejection of three calls: that of the wait
    for network idle started right after the screenshot [02-before-submit]
    (line 98, [.catch(() => {})]), that of [innerText()] (line 160,
    [.catch(() => '')]), and that of the screenshot [99-error] of the
    [catch] block (line 170, [try { ... } catch {}]).  [prev] is the
    browser call made just before [o]. *)
Definition discarded (prev : option Op) (o : Op) : bool :=
  match o with
  | page_waitForLoadState _ =>
      match prev with
      | Some (page_screenshot p) => String.eqb p (screenshot "02-before-submit")
      | _ => false
      end
  | locator_innerText _ => true
  | page_screenshot p => String.eqb p (screenshot "99-error")
  | _ => false
  end.

(** The browser calls of [tr] that threw and whose rejection is not
    discarded, with what they threw; [prev] is the browser call made before
    [tr]. *)
Fixpoint uncaughtFrom (prev : option Op) (tr : list Event) : list (Op * Exn) :=
  match tr with
  | [] => []
  | EvCall o r :: tr' =>
      if isBrowserOp o then
        (match r with
         | Thrown e => if discarded prev o then [] else [(o, e)]
         | Normal _ => []
         end ++ uncaughtFrom (Some o) tr')%list
      else uncaughtFrom prev tr'
  | _ :: tr' => uncaughtFrom prev tr'
  end.

Definition uncaught (tr : list Event) : list (Op * Exn) := uncaughtFrom None tr.

(** The last browser call of [tr], and [prev] when it has none. *)
Fixpoint lastCallFrom (prev : option Op) (tr : list Event) : option Op :=
  match tr with
  | [] => prev
  | EvCall o _ :: tr' => lastCallFrom (if isBrowserOp o then Some o else prev) tr'
  | _ :: tr' => lastCallFrom prev tr'
  end.

Definition lastCall (tr : list Event) : option Op := lastCallFrom None tr.

(** ** Following a plan *)

(** The events [d], made after the browser call [prev], end with a browser
    call that threw [e]; its rejection is not discarded, and no other
    rejection of [d] is left undiscarded. *)
Definition endsWithThrow (prev : option Op) (e : Exn) (d : list Event) : Prop :=
  exists d' o,
    d = (d' ++ [EvCall o (Thrown e)])%list
    /\ isBrowserOp o = true
    /\ uncaughtFrom prev d' = []
    /\ discarded (lastCallFrom prev d') o = false.

(** [res] is what a body following the plan [S] may give from [st], when
    the browser call made before it is [prev]: when it returns, its steps
    are a list of the plan, [process.exitCode] is the code of that list and
    none of its calls threw without the rejection being discarded; when it
    throws, what it throws comes from the browser call it made last, and
    its steps are an initial part of a list of the plan. *)
Definition Result (S : Plan) (prev : option Op) (st : St) (res : St * Outcome unit) : Prop :=
  exists d,
    trace (fst res) = (trace st ++ d)%list
    /\ match snd res with
       | Normal _ =>
           exists c, S (steps d) c /\ exitCode (fst res) = Some c
                     /\ uncaughtFrom prev d = []
       | Thrown e =>
           endsWithThrow prev e d /\ exists later c, S (steps d ++ later)%list c
       end.

Definition Follows (S : Plan) (prev : option Op) (m : M unit) : Prop :=
  forall st, Result S prev st (m st).

(** The shape of a run for a given script: the events of the run, and the
    status the process ends with.
    - The browser, its context or the page cannot be had: nothing follows
      the call that threw (lines 58-64 are outside the [try]), whatever the
      script.
    - The script is performed to its end: the [finally] block follows, and
      the status is the code of the script unless a closing call throws.
    - A call inside the [try] throws: the script is cut short there, the
      [catch] block follows with the error thrown by that call, then the
      [finally] block. *)
Inductive Outline (script : list Step) (code : Z) : list Event -> Z -> Prop :=
| outline_not_started k o e :
    nth_error [chromium_launch; browser_newContext; context_newPage] k = Some o ->
    Outline script code (firstn k setupEvents ++ [EvCall o (Thrown e)])%list 1%Z
| outline_completed body cl out :
    steps body = script ->
    Closed (Normal tt) cl out ->
    Outline script code (body ++ cl)%list
      (match out with Normal _ => code | Thrown _ => 1%Z end)
| outline_cut_short pre o e later shot present d cl out :
    isBrowserOp o = true ->
    script = (steps (pre ++ [EvCall o (Thrown e)]) ++ later)%list ->
    later <> [] ->
    (3 <= length (steps pre))%nat ->
    Chat d ->
    Closed (Normal tt) cl out ->
    Outline script code
      (pre ++ [EvCall o (Thrown e)] ++ handlerEvents e shot present ++ d ++ cl)%list 1%Z.

(** The same with the rejections: a script is performed to its end exactly
    when no rejection inside the [try] is left undiscarded, and it is cut
    short at the first call whose rejection is not discarded. *)
Inductive Course (script : list Step) (code : Z) : list Event -> Z -> Prop :=
| course_not_started k o e :
    nth_error [chromium_launch; browser_newContext; context_newPage] k = Some o ->
    Course script code (firstn k setupEvents ++ [EvCall o (Thrown e)])%list 1%Z
| course_completed body cl out :
    steps body = script ->
    uncaught body = [] ->
    Closed (Normal tt) cl out ->
    Course script code (body ++ cl)%list
      (match out with Normal _ => code | Thrown _ => 1%Z end)
| course_cut_short pre o e later shot present d cl out :
    isBrowserOp o = true ->
    uncaught pre = [] ->
    discarded (lastCall pre) o = false ->
    script = (steps (pre ++ [EvCall o (Thrown e)]) ++ later)%list ->
    later <> [] ->
    (3 <= length (steps pre))%nat ->
    Chat d ->
    Closed (Normal tt) cl out ->
    Course script code
      (pre ++ [EvCall o (Thrown e)] ++ handlerEvents e shot present ++ d ++ cl)%list 1%Z.

(** ** Readings of a list of steps *)

Definition notesOf (l : list Step) : list (bool * string * option string) :=
  flat_map (fun s => match s with
                     | Notified ok stage sp => [(ok, stage, sp)]
                     | _ => []
                     end) l.

Definition fillsOf (l : list Step) : list (Locator * string) :=
  flat_map (fun s => match s with
                     | Called (locator_fill l t) => [(l, t)]
                     | _ => []
                     end) l.

Definition shotsOf (l : list Step) : list string :=
  flat_map (fun s => match s with
                     | Called (page_screenshot p) => [p]
                     | _ => []
                     end) l.

(** The screenshots asked for, whether the call returned or threw. *)
Definition screenshotCalls : list Event -> list string :=
  project (fun ev => match ev with
                     | EvCall (page_screenshot p) _ => Some p
                     | _ => None
                     end).

(** The files read by [fs.readFileSync]. *)
Definition filesRead : list Event -> list string :=
  project (fun ev => match ev with
                     | EvCall (fs_readFileSync p) _ => Some p
                     | _ => None
                     end).

(** The four notifications of a run in which everything works (lines 111,
    121, 134 and 151). *)
Definition successNotes : list (bool * string * option string) :=
  [ (true, "登录成功", Some (screenshot "03-after-submit"));
    (true, "进入服务器页面", Some (screenshot "04-server-page"));
    (true, "点击 Restart", None);
    (true, "命令执行完成", Some (screenshot "05-command-executed")) ].

(** The screenshots of a login without challenge, in the order of the
    source (lines 94, 103, 119 and 149). *)
Definition workflowShots : list string :=
  [ screenshot "02-before-submit"; screenshot "03-after-submit";
    screenshot "04-server-page"; screenshot "05-command-executed" ].

(** ** What a run adds to the trace, as a whole *)

(** [m] only adds events to the trace, and what it adds satisfies [R]. *)
Definition Adds (R : list Event -> Prop) {A} (m : M A) : Prop :=
  forall st, exists d, trace (fst (m st)) = (trace st ++ d)%list /\ R d.

Definition Additive (R : list Event -> Prop) : Prop :=
  R [] /\ forall d1 d2, R d1 -> R d2 -> R (d1 ++ d2)%list.

(** Nothing is sent to the chat service, no file is read, and each call of
    the Notifier writes the warning of line 13 and nothing else. *)
Definition skipsDelivery (d : list Event) : Prop :=
  fetches d = []
  /\ filesRead d = []
  /\ logLines d = map (fun _ => warnUnset) (notifications d).

(** The events of lines 58-94 when no challenge is shown and no call
    throws. *)
Definition untilSubmit (username password : string) : list Event :=
  (setupEvents
   ++ [ EvCall (page_goto LOGIN_URL 60000) (Normal VUnit);
        EvCall (locator_count humanCheckText) (Normal (VNum 0));
        EvCall (locator_waitFor userInput 30000) (Normal VUnit);
        EvCall (locator_waitFor passInput 30000) (Normal VUnit);
        EvCall (locator_fill userInput username) (Normal VUnit);
        EvCall (locator_fill passInput password) (Normal VUnit);
        EvCall (locator_waitFor loginBtn 15000) (Normal VUnit);
        EvCall (page_screenshot (screenshot "02-before-submit")) (Normal VUnit) ])%list.

(** The panel credentials are set, the chat credentials are not. *)
Definition quietWorld : World :=
  worldOf credentials (fun _ => false) (fun _ => 0%nat)
    "https://ctrl.lunes.host/" (fun _ => true).

(** The network never gets idle: every wait for it throws. *)
Definition neverIdleWorld : World :=
  worldOf (credentials ++ chatCredentials)
    (fun o => match o with page_waitForLoadState _ => true | _ => false end)
    (fun _ => 0%nat) "https://ctrl.lunes.host/" (fun _ => true).

(** The last browser call of the history [h] is the screenshot
    [02-before-submit]. *)
Definition afterShot02 (h : list Event) : bool :=
  match lastCall h with
  | Some (page_screenshot p) => String.eqb p (screenshot "02-before-submit")
  | _ => false
  end.

(** Everything works, except that the network is not idle in time after
    the submission: the wait started right after the screenshot
    [02-before-submit] throws. *)
Definition busySubmitWorld : World :=
  {| env := envOf (credentials ++ chatCredentials);
     respond := fun h o =>
       if match o with page_waitForLoadState _ => afterShot02 h | _ => false end
       then Thrown {| name := "TimeoutError"; message := "Timeout 30000ms exceeded." |}
       else Normal (answer (fun _ => 0%nat) o);
     observe := fun _ q =>
       match q return QResp q with
       | page_url => "https://ctrl.lunes.host/"
       | fs_existsSync _ => true
       | Date_toISOString => "2025-01-01T00:00:00.000Z"
       end |}.

Open Scope list_scope.

(** ** Strings *)

Lemma prefix_app (p s : string) :
  prefix p s = true <-> exists rest, s = (p ++ rest)%string.
Proof.
  revert s. induction p as [|a p IH]; intros s.
  - split; [intros _; exists s; reflexivity | intros _; destruct s; reflexivity].
  - destruct s as [|b s]; cbn [prefix append].
    + split; [discriminate | intros [rest H]; discriminate H].
    + destruct (ascii_dec a b) as [->|Hab].
      * rewrite IH. split; intros [rest H]; exists rest; [rewrite H; reflexivity|].
        injection H as H. exact H.
      * split; [discriminate|]. intros [rest H]. injection H as H1 H2. congruence.
Qed.

(** [includes pat s] finds [pat] exactly when it occurs in [s]. *)
Lemma includes_spec (pat s : string) :
  includes pat s = true <-> exists before after, s = (before ++ pat ++ after)%string.
Proof.
  induction s as [|c s IH]; cbn [includes].
  - destruct (prefix pat "") eqn:P.
    + apply prefix_app in P. destruct P as [rest P].
      split; [intros _; exists ""%string, rest; exact P | reflexivity].
    + split; [discriminate|]. intros (before & after & H).
      destruct before; cbn in H.
      * assert (prefix pat "" = true) by (apply prefix_app; eauto). congruence.
      * discriminate H.
  - destruct (prefix pat (String c s)) eqn:P.
    + apply prefix_app in P. destruct P as [rest P].
      split; [intros _; exists ""%string, rest; exact P | reflexivity].
    + rewrite IH. split; intros (before & after & H).
      * exists (String c before), after. rewrite H. reflexivity.
      * destruct before as [|b before]; cbn in H.
        -- assert (prefix pat (String c s) = true) by (apply prefix_app; eauto).
           congruence.
        -- injection H as _ H. eauto.
Qed.

(** ** Lists of events *)

Lemma project_app {A} (f : Event -> option A) (l1 l2 : list Event) :
  project f (l1 ++ l2) = project f l1 ++ project f l2.
Proof. unfold project. apply flat_map_app. Qed.

Lemma project_chat {A} (f : Event -> option A) (d : list Event) :
  Chat d ->
  (forall ev, isChatEvent ev = true -> f ev = None) ->
  project f d = [].
Proof.
  intros Hd Hf. induction Hd as [|ev d Hev _ IH]; [reflexivity|].
  unfold project in *. simpl. rewrite (Hf ev Hev). exact IH.
Qed.

Lemma existsb_chat (f : Event -> bool) (d : list Event) :
  Chat d ->
  (forall ev, isChatEvent ev = true -> f ev = false) ->
  existsb f d = false.
Proof.
  intros Hd Hf. induction Hd as [|ev d Hev _ IH]; [reflexivity|].
  simpl. rewrite (Hf ev Hev). exact IH.
Qed.

(** ** The Notifier *)

Ltac tidy_trace :=
  unfold record; cbn [trace exitCode];
  repeat rewrite <- app_assoc; cbn [app].

Lemma skipn_past {A} (l : list A) (x : A) (d : list A) :
  skipn (S (length l)) (l ++ x :: d) = d.
Proof. induction l as [|y l IH]; [reflexivity | exact IH]. Qed.

Lemma Delivery_Chat W ok stage msg sp d : Delivery W ok stage msg sp d -> Chat d.
Proof.
  intros H. destruct H; unfold Chat;
    repeat (apply Forall_cons; [reflexivity|]); apply Forall_nil.
Qed.

Section Notifier.

Variable W : World.

Lemma notifyTelegram_run ok stage msg sp st :
  exists d,
    notifyTelegram W ok stage msg sp st
    = ({| trace := trace st ++ EvNotify ok stage msg sp :: d;
          exitCode := exitCode st |}, Normal tt)
    /\ Delivery W ok stage msg sp d.
Proof.
  unfold notifyTelegram, console_log, bind, try_catch, emit, read, call, ret.
  cbn [trace record exitCode].
  destruct (envTruthy W "TELEGRAM_BOT_TOKEN") as [token|] eqn:Et;
    [destruct (envTruthy W "TELEGRAM_CHAT_ID") as [chatId|] eqn:Ec|].
  2,3: eexists; split; [tidy_trace; reflexivity | apply delivery_skipped; auto].
  cbn [trace record exitCode].
  match goal with |- context [respond W ?h ?o] => destruct (respond W h o) as [[]|e] end.
  2: eexists; split; [tidy_trace; reflexivity | eapply delivery_text_failed; eauto].
  destruct (pathGiven sp) as [p|] eqn:Ep.
  2: eexists; split; [tidy_trace; reflexivity | eapply delivery_text_only; eauto].
  cbn [trace record exitCode].
  match goal with |- context [observe W ?h ?q] => destruct (observe W h q) end.
  2: eexists; split; [tidy_trace; reflexivity | eapply delivery_file_missing; eauto].
  cbn [trace record exitCode].
  match goal with |- context [respond W ?h ?o] => destruct (respond W h o) as [photo|e] end.
  2: eexists; split; [tidy_trace; reflexivity | eapply delivery_file_unreadable; eauto].
  cbn [trace record exitCode].
  match goal with |- context [respond W ?h ?o] => destruct (respond W h o) as [[]|e] end.
  - eexists; split; [tidy_trace; reflexivity | eapply delivery_photo_sent; eauto].
  - eexists; split; [tidy_trace; reflexivity | eapply delivery_photo_failed; eauto].
Qed.

(** Whatever the world answers, a call of [notifyTelegram] returns, leaves
    [process.exitCode] alone, and adds to the trace its entry followed by
    one of the seven deliveries. *)
Lemma notifyTelegram_eq ok stage msg sp st :
  notifyTelegram W ok stage msg sp st
  = ({| trace := trace st ++ EvNotify ok stage msg sp :: notifyEvents W ok stage msg sp st;
        exitCode := exitCode st |}, Normal tt).
Proof.
  destruct (notifyTelegram_run ok stage msg sp st) as (d & E & _).
  unfold notifyEvents. rewrite E. cbn [fst trace]. rewrite skipn_past. reflexivity.
Qed.

Lemma notifyEvents_Delivery ok stage msg sp st :
  Delivery W ok stage msg sp (notifyEvents W ok stage msg sp st).
Proof.
  destruct (notifyTelegram_run ok stage msg sp st) as (d & E & H).
  unfold notifyEvents. rewrite E. cbn [fst trace]. rewrite skipn_past. exact H.
Qed.

Lemma notifyEvents_Chat ok stage msg sp st :
  Chat (notifyEvents W ok stage msg sp st).
Proof. eapply Delivery_Chat, notifyEvents_Delivery. Qed.

End Notifier.

Arguments notifyEvents : simpl never.

(** ** What a computation adds to the trace *)

Lemma Emits_ret P {A} (a : A) : Emits P (ret a).
Proof. intros st. exists []. rewrite app_nil_r. split; [reflexivity|constructor]. Qed.

Lemma Emits_throw P {A} (e : Exn) : Emits P (@throw A e).
Proof. intros st. exists []. rewrite app_nil_r. split; [reflexivity|constructor]. Qed.

Lemma Emits_setExitCode P c : Emits P (setExitCode c).
Proof. intros st. exists []. rewrite app_nil_r. split; [reflexivity|constructor]. Qed.

Lemma Emits_emit (P : Event -> Prop) ev : P ev -> Emits P (emit ev).
Proof. intros H st. exists [ev]. split; [reflexivity|]. constructor; [exact H|constructor]. Qed.

Lemma Emits_bind P {A B} (m : M A) (k : A -> M B) :
  Emits P m -> (forall a, Emits P (k a)) -> Emits P (bind m k).
Proof.
  intros Hm Hk st. unfold bind.
  destruct (Hm st) as (d1 & E1 & F1).
  destruct (m st) as [st1 [a|e]]; cbn [fst] in *.
  - destruct (Hk a st1) as (d2 & E2 & F2).
    exists (d1 ++ d2). rewrite E2, E1, app_assoc.
    split; [reflexivity|]. apply Forall_app. split; assumption.
  - exists d1. split; assumption.
Qed.

Lemma Emits_try_catch P {A} (m : M A) (h : Exn -> M A) :
  Emits P m -> (forall e, Emits P (h e)) -> Emits P (try_catch m h).
Proof.
  intros Hm Hh st. unfold try_catch.
  destruct (Hm st) as (d1 & E1 & F1).
  destruct (m st) as [st1 [a|e]]; cbn [fst] in *.
  - exists d1. split; assumption.
  - destruct (Hh e st1) as (d2 & E2 & F2).
    exists (d1 ++ d2). rewrite E2, E1, app_assoc.
    split; [reflexivity|]. apply Forall_app. split; assumption.
Qed.

Lemma Emits_try_finally P {A} (m : M A) (f : M unit) :
  Emits P m -> Emits P f -> Emits P (try_finally m f).
Proof.
  intros Hm Hf st. unfold try_finally.
  destruct (Hm st) as (d1 & E1 & F1).
  destruct (m st) as [st1 r]; cbn [fst] in *.
  destruct (Hf st1) as (d2 & E2 & F2).
  exists (d1 ++ d2).
  destruct (f st1) as [st2 [[]|e]]; cbn [fst] in *;
    rewrite E2, E1, app_assoc;
    (split; [reflexivity|]); apply Forall_app; split; assumption.
Qed.

Section Primitives.

Variable W : World.

Lemma Emits_call (P : Event -> Prop) (o : Op) :
  (forall r, P (EvCall o r)) -> Emits P (call W o).
Proof.
  intros H st. eexists [_]. split; [reflexivity|].
  constructor; [apply H|constructor].
Qed.

Lemma Emits_read (P : Event -> Prop) (q : Query) :
  (forall v, P (EvObs q v)) -> Emits P (read W q).
Proof.
  intros H st. eexists [_]. split; [reflexivity|].
  constructor; [apply H|constructor].
Qed.

Lemma Emits_notifyTelegram (P : Event -> Prop) ok stage msg sp :
  P (EvNotify ok stage msg sp) ->
  (forall ev, isChatEvent ev = true -> P ev) ->
  Emits P (notifyTelegram W ok stage msg sp).
Proof.
  intros H1 H2 st. rewrite notifyTelegram_eq. cbn [fst trace].
  eexists. split; [reflexivity|].
  constructor; [exact H1|].
  eapply Forall_impl; [exact H2|]. apply notifyEvents_Chat.
Qed.

Lemma Emits_envOrThrow P name : Emits P (envOrThrow W name).
Proof.
  unfold envOrThrow. destruct (envTruthy W name); [apply Emits_ret|apply Emits_throw].
Qed.

End Primitives.

(** What [Emits] gives for the readings of a trace. *)
Lemma project_Emits {A B} (f : Event -> option A) (m : M B) (st : St) :
  Emits (fun ev => f ev = None) m ->
  project f (trace (fst (m st))) = project f (trace st).
Proof.
  intros H. destruct (H st) as (d & E & F). rewrite E, project_app.
  assert (project f d = []) as ->; [|apply app_nil_r].
  clear E. induction F as [|ev d Hev _ IH]; [reflexivity|].
  unfold project in *. cbn [flat_map]. rewrite Hev. exact IH.
Qed.

Lemma existsb_Emits {B} (f : Event -> bool) (m : M B) (st : St) :
  Emits (fun ev => f ev = false) m ->
  existsb f (trace (fst (m st))) = existsb f (trace st).
Proof.
  intros H. destruct (H st) as (d & E & F). rewrite E, existsb_app.
  assert (existsb f d = false) as ->; [|apply orb_false_r].
  clear E. induction F as [|ev d Hev _ IH]; [reflexivity|].
  cbn [existsb]. rewrite Hev. exact IH.
Qed.

Lemma trace_Emits {B} (m : M B) (st : St) :
  Emits (fun _ => True) m -> exists d, trace (fst (m st)) = trace st ++ d.
Proof. intros H. destruct (H st) as (d & E & _). eauto. Qed.

(** Proves [Emits P m] for a body [m] written with the operations above,
    when every event it can add satisfies [P] by computation. *)
Ltac emits_event :=
  first [ exact I
        | reflexivity
        | let r := fresh in intros r; first [exact I | reflexivity | destruct r; reflexivity]
        | let ev := fresh in
          let o := fresh in
          let r := fresh in
          intros ev; destruct ev as [o r|o r| |]; try destruct o; cbn; intros;
          first [exact I | reflexivity | discriminate | destruct r; reflexivity] ].

Ltac emits :=
  repeat first
    [ apply Emits_ret
    | apply Emits_throw
    | apply Emits_setExitCode
    | apply Emits_envOrThrow
    | apply Emits_call; emits_event
    | apply Emits_read; emits_event
    | apply Emits_notifyTelegram; [emits_event | emits_event]
    | apply Emits_emit; emits_event
    | apply Emits_bind; [|intro]
    | apply Emits_try_catch; [|intro]
    | apply Emits_try_finally
    | match goal with
      | |- Emits _ (if ?b then _ else _) => destruct b
      | |- Emits _ (match ?x with _ => _ end) => destruct x
      end ].

(** ** Stepping through the [try] of [main] *)

Section Runner.

Variable W : World.

Lemma bind_ret {A B} (a : A) (k : A -> M B) st : bind (ret a) k st = k a st.
Proof. reflexivity. Qed.

Lemma bind_call {B} (o : Op) (k : Resp o -> M B) st :
  bind (call W o) k st
  = match respond W (trace st) o with
    | Normal v => k v (record (EvCall o (Normal (inject o v))) st)
    | Thrown e => (record (EvCall o (Thrown e)) st, Thrown e)
    end.
Proof. unfold bind, call. destruct (respond W (trace st) o); reflexivity. Qed.

Lemma guarded_bind {A} (m : M A) (k : A -> M unit) st :
  guarded W (bind m k) st
  = match m st with
    | (st', Normal a) => guarded W (k a) st'
    | (st', Thrown e) => abort W e st'
    end.
Proof.
  unfold guarded, abort, try_finally, try_catch, bind.
  destruct (m st) as [st' [a|e]]; reflexivity.
Qed.

Lemma guarded_call (o : Op) (k : Resp o -> M unit) st :
  guarded W (bind (call W o) k) st
  = match respond W (trace st) o with
    | Normal v => guarded W (k v) (record (EvCall o (Normal (inject o v))) st)
    | Thrown e => abort W e (record (EvCall o (Thrown e)) st)
    end.
Proof.
  rewrite guarded_bind. unfold call.
  destruct (respond W (trace st) o); reflexivity.
Qed.

Lemma guarded_read (q : Query) (k : QResp q -> M unit) st :
  guarded W (bind (read W q) k) st
  = guarded W (k (observe W (trace st) q))
      (record (EvObs q (injectQ q (observe W (trace st) q))) st).
Proof. rewrite guarded_bind. reflexivity. Qed.

Lemma guarded_ret {A} (a : A) (k : A -> M unit) st :
  guarded W (bind (ret a) k) st = guarded W (k a) st.
Proof. rewrite guarded_bind. reflexivity. Qed.

Lemma guarded_notify ok stage msg sp (k : unit -> M unit) st :
  guarded W (bind (notifyTelegram W ok stage msg sp) k) st
  = guarded W (k tt)
      {| trace := trace st ++ [EvNotify ok stage msg sp]
                    ++ notifyEvents W ok stage msg sp st;
         exitCode := exitCode st |}.
Proof. rewrite guarded_bind, notifyTelegram_eq. reflexivity. Qed.

(** Line 98: the wait whose rejection is discarded. *)
Lemma guarded_swallow_wait t (k : unit -> M unit) st :
  guarded W (bind (swallow (call W (page_waitForLoadState t))) k) st
  = guarded W (k tt)
      (record (EvCall (page_waitForLoadState t)
                 (summary (respond W (trace st) (page_waitForLoadState t)))) st).
Proof.
  rewrite guarded_bind. unfold swallow, try_catch, call.
  destruct (respond W (trace st) (page_waitForLoadState t)) as [[]|e]; reflexivity.
Qed.

(** Line 160: the text whose rejection is replaced by the empty string. *)
Lemma guarded_caught_innerText l (k : string -> M unit) st :
  guarded W (bind (try_catch (call W (locator_innerText l)) (fun _ => ret "")) k) st
  = match respond W (trace st) (locator_innerText l) with
    | Normal v => guarded W (k v) (record (EvCall (locator_innerText l) (Normal (VStr v))) st)
    | Thrown e => guarded W (k "") (record (EvCall (locator_innerText l) (Thrown e)) st)
    end.
Proof.
  rewrite guarded_bind. unfold try_catch, call.
  destruct (respond W (trace st) (locator_innerText l)); reflexivity.
Qed.

Lemma guarded_setExitCode c st :
  guarded W (setExitCode c) st = finish W {| trace := trace st; exitCode := Some c |}.
Proof. reflexivity. Qed.

(** The [finally] block after the normal end of the [try]. *)
Lemma finish_spec st :
  exists cl out,
    finish W st = ({| trace := trace st ++ cl; exitCode := exitCode st |}, out)
    /\ Closed (Normal tt) cl out.
Proof.
  unfold finish, try_finally, teardown, ret. rewrite bind_call.
  destruct (respond W (trace st) context_close) as [[]|e].
  - unfold call. cbn [record trace exitCode].
    match goal with |- context [respond W ?h ?o] => destruct (respond W h o) as [[]|e] end.
    + do 2 eexists. split; [tidy_trace; reflexivity | constructor].
    + do 2 eexists. split; [tidy_trace; reflexivity | constructor].
  - do 2 eexists. split; [reflexivity | constructor].
Qed.

(** The [catch] block: it returns, with [process.exitCode] set to 1. *)
Lemma handler_spec e st :
  exists shot present d,
    handler W e st
    = ({| trace := trace st ++ handlerEvents e shot present ++ d;
          exitCode := Some 1%Z |}, Normal tt)
    /\ Chat d.
Proof.
  unfold handler, swallow, bind, try_catch, call, read, ret, setExitCode.
  destruct (respond W (trace st) (page_screenshot (screenshot "99-error"))) as [[]|x];
    [exists (Normal VUnit) | exists (Thrown x)];
    cbn [summary inject injectQ record trace exitCode];
    rewrite notifyTelegram_eq; cbn [trace exitCode];
    (eexists; eexists; split; [|apply notifyEvents_Chat]);
    unfold handlerEvents; tidy_trace; reflexivity.
Qed.

Lemma abort_eq e st : abort W e st = finish W (fst (handler W e st)).
Proof.
  destruct (handler_spec e st) as (shot & present & d & E & _).
  unfold abort, finish, try_finally. rewrite E. reflexivity.
Qed.

(** What follows a throw inside the [try]: the [catch] block, then the
    [finally] block; [process.exitCode] ends as 1. *)
Lemma abort_spec e st :
  exists shot present d cl out,
    abort W e st
    = ({| trace := trace st ++ handlerEvents e shot present ++ d ++ cl;
          exitCode := Some 1%Z |}, out)
    /\ Chat d /\ Closed (Normal tt) cl out.
Proof.
  rewrite abort_eq.
  destruct (handler_spec e st) as (shot & present & d & E & Hd).
  rewrite E. cbn [fst].
  match goal with |- context [finish W ?s] => destruct (finish_spec s) as (cl & out & E' & Hcl) end.
  rewrite E'. cbn [trace exitCode].
  exists shot, present, d, cl, out. split; [|split; assumption].
  repeat rewrite <- app_assoc. reflexivity.
Qed.

(** The [finally] block of [main] after any body. *)
Lemma try_finally_teardown (m : M unit) st :
  exists cl out,
    try_finally m (teardown W) st
    = ({| trace := trace (fst (m st)) ++ cl; exitCode := exitCode (fst (m st)) |}, out)
    /\ Closed (snd (m st)) cl out.
Proof.
  unfold try_finally. destruct (m st) as [st1 r]. cbn [fst snd].
  unfold teardown. rewrite bind_call.
  destruct (respond W (trace st1) context_close) as [[]|e].
  - unfold call. cbn [record trace exitCode].
    match goal with |- context [respond W ?h ?o] => destruct (respond W h o) as [[]|e] end.
    + do 2 eexists. split; [tidy_trace; reflexivity | constructor].
    + do 2 eexists. split; [tidy_trace; reflexivity | constructor].
  - do 2 eexists. split; [reflexivity | constructor].
Qed.

(** How a body run inside the [try] ends: with the [finally] block when it
    returns, with the [catch] block and then the [finally] block when it
    throws. *)
Lemma guarded_cases (m : M unit) st :
  guarded W m st
  = match m st with
    | (st', Normal _) => finish W st'
    | (st', Thrown e) => abort W e st'
    end.
Proof.
  unfold guarded, finish, abort, try_finally, try_catch, ret.
  destruct (m st) as [st' [[]|e]]; reflexivity.
Qed.

(** How [main] gets to its [try]: a credential is missing and nothing is
    done; or the browser, its context or the page cannot be had; or the
    [try] is entered with the three of them. *)
Lemma run_cases :
  (exists name,
      (name = "LUNES_USERNAME" \/ name = "LUNES_PASSWORD")
      /\ envTruthy W name = None
      /\ run W = (init, Thrown (Error ("环境变量 " ++ name ++ " 未设置"))))
  \/ (exists username password,
        envTruthy W "LUNES_USERNAME" = Some username
        /\ envTruthy W "LUNES_PASSWORD" = Some password
        /\ ((exists e, run W = ({| trace := [EvCall chromium_launch (Thrown e)];
                                  exitCode := None |}, Thrown e))
            \/ (exists e, run W = ({| trace := [EvCall chromium_launch (Normal VUnit);
                                               EvCall browser_newContext (Thrown e)];
                                     exitCode := None |}, Thrown e))
            \/ (exists e, run W = ({| trace := [EvCall chromium_launch (Normal VUnit);
                                               EvCall browser_newContext (Normal VUnit);
                                               EvCall context_newPage (Thrown e)];
                                     exitCode := None |}, Thrown e))
            \/ run W = guarded W (workflow W username password)
                         {| trace := setupEvents; exitCode := None |})).
Proof.
  unfold run, main, envOrThrow.
  destruct (envTruthy W "LUNES_USERNAME") as [username|] eqn:Eu;
    [|left; exists "LUNES_USERNAME"; auto].
  rewrite bind_ret.
  destruct (envTruthy W "LUNES_PASSWORD") as [password|] eqn:Ep;
    [|left; exists "LUNES_PASSWORD"; auto].
  rewrite bind_ret. right. exists username, password.
  split; [reflexivity|]. split; [reflexivity|].
  rewrite bind_call.
  destruct (respond W (trace init) chromium_launch) as [[]|e];
    [|left; exists e; reflexivity].
  right. rewrite bind_call. cbn [record trace exitCode init app inject].
  match goal with |- context [respond W ?h ?o] => destruct (respond W h o) as [[]|e] end;
    [|left; exists e; reflexivity].
  right. rewrite bind_call. cbn [record trace exitCode init app inject].
  match goal with |- context [respond W ?h ?o] => destruct (respond W h o) as [[]|e] end;
    [|left; exists e; reflexivity].
  right. reflexivity.
Qed.

End Runner.

(** Steps through [E : run W = guarded W (x <- m ;; k) st]. *)
Ltac tidy E :=
  unfold record in E; cbn [trace exitCode inject injectQ summary] in E;
  repeat rewrite <- app_assoc in E.

Ltac gstep E :=
  first [ rewrite guarded_call in E
        | rewrite guarded_read in E
        | rewrite guarded_notify in E
        | rewrite guarded_swallow_wait in E
        | rewrite guarded_caught_innerText in E
        | rewrite guarded_ret in E
        | rewrite guarded_setExitCode in E ];
  tidy E.

Ltac gcase W E :=
  match type of E with
  | context [match respond W ?h ?o with _ => _ end] =>
      let v := fresh "v" in
      let e := fresh "e" in
      destruct (respond W h o) as [v|e] eqn:?
  end;
  tidy E.

Ltac unfold_blocks :=
  unfold guarded, abort, finish, handler, teardown, swallow,
    humanCheckExit, loginFailed, loginSucceeded.

(** Closes a goal whose hypothesis [H] reads from the trace something that
    the rest of the run cannot have put there. *)
Ltac reads H :=
  unfold urlRead, countReturned in H;
  rewrite project_Emits in H by (unfold_blocks; emits);
  vm_compute in H.

Ltac dead H :=
  solve [ discriminate H
        | vm_compute in H; discriminate H
        | reads H; discriminate H ].

Ltac gdead H E := rewrite E in H; dead H.

(** The run extends the trace it has at [st]. *)
Ltac extends H :=
  match type of H with context [guarded ?W ?m ?st] =>
    let d := fresh "d" in
    let Ed := fresh "Ed" in
    destruct (trace_Emits (guarded W m) st) as (d & Ed); [unfold_blocks; emits|];
    rewrite Ed in H
  end.

Section Paths.

Variable W : World.

(** The run in which the challenge marker is found. *)
Lemma challenge_path n :
  countReturned humanCheckText (events W) = Some n ->
  (0 < n)%nat ->
  exists username password,
    envTruthy W "LUNES_USERNAME" = Some username
    /\ envTruthy W "LUNES_PASSWORD" = Some password
    /\ run W = guarded W (humanCheckExit W)
                 {| trace := setupEvents ++
                      [ EvCall (page_goto LOGIN_URL 60000) (Normal VUnit);
                        EvCall (locator_count humanCheckText) (Normal (VNum n)) ];
                    exitCode := None |}.
Proof.
  unfold events. intros H Hn.
  destruct (run_cases W)
    as [(name & _ & _ & E)|(u & p & Eu & Ep & [(e & E)|[(e & E)|[(e & E)|E]]])];
    try gdead H E.
  exists u, p. split; [exact Eu|]. split; [exact Ep|].
  unfold workflow in E.
  gstep E. gcase W E; [|gdead H E].
  gstep E. gcase W E; [|gdead H E].
  rewrite E in H |- *.
  destruct (0 <? v0)%nat eqn:Hc.
  - reads H. injection H as ->. reflexivity.
  - exfalso. apply Nat.ltb_ge in Hc. assert (v0 = 0)%nat as -> by lia.
    extends H. vm_compute in H. injection H as H. lia.
Qed.

(** The run that gets to line 106 and reads the URL [u] there. *)
Lemma url_path u :
  urlRead (events W) = Some u ->
  exists username password idle,
    envTruthy W "LUNES_USERNAME" = Some username
    /\ envTruthy W "LUNES_PASSWORD" = Some password
    /\ run W
       = guarded W (fromJudgement W u)
           {| trace := setupEvents ++ loginEvents username password idle
                         ++ [EvObs page_url (VStr u)];
              exitCode := None |}.
Proof.
  unfold events. intros H.
  destruct (run_cases W)
    as [(name & _ & _ & E)|(un & pw & Eu & Ep & [(e & E)|[(e & E)|[(e & E)|E]]])];
    try gdead H E.
  exists un, pw.
  unfold workflow in E.
  gstep E. gcase W E; [|gdead H E].
  gstep E. gcase W E; [|gdead H E].
  destruct (0 <? v0)%nat eqn:Hc; [gdead H E|].
  apply Nat.ltb_ge in Hc. assert (v0 = 0)%nat as -> by lia.
  do 6 (gstep E; gcase W E; [|gdead H E]).
  gstep E.
  match type of E with
  | context [summary (respond W ?h ?o)] =>
      remember (respond W h o) as idle eqn:Hidle; clear Hidle
  end; exists idle.
  do 2 (gstep E; gcase W E; [|gdead H E]).
  gstep E.
  match type of E with context [observe W ?h page_url] =>
    remember (observe W h page_url) as u' eqn:Hu; clear Hu
  end.
  rewrite E in H |- *.
  extends H. vm_compute in H. injection H as ->.
  repeat split; try assumption.
Qed.

End Paths.

(** ** Reading the trace of a finished run *)

Ltac chat_side :=
  let ev := fresh in
  let o := fresh in
  let r := fresh in
  intros ev; destruct ev as [o r|o r| |]; try destruct o; cbn; intros;
  first [reflexivity | discriminate | destruct r; reflexivity].

Ltac drop_chat :=
  repeat match goal with
         | |- context [project ?f (notifyEvents ?W ?a ?b ?c ?d ?st)] =>
             rewrite (project_chat f _ (notifyEvents_Chat W a b c d st)) by chat_side
         | Hd : Chat ?d |- context [project ?f ?d] =>
             rewrite (project_chat f d Hd) by chat_side
         | |- context [existsb ?f (notifyEvents ?W ?a ?b ?c ?d ?st)] =>
             rewrite (existsb_chat f _ (notifyEvents_Chat W a b c d st)) by chat_side
         | Hd : Chat ?d |- context [existsb ?f ?d] =>
             rewrite (existsb_chat f d Hd) by chat_side
         end.

(** Computes a reading of a trace made of explicit events and of events of
    the Notifier. *)
Ltac read_trace :=
  unfold setupEvents, loginEvents, handlerEvents;
  unfold successNotified, downstreamBegun, handlerEntered, errorMsgRead,
    urlRead, countReturned, fetches, logLines, browserCalls, notifications,
    screenshotsWritten, downstreamCalls, fills, contextCloses, browserCloses,
    thrownByBrowser, downstreamPerformed, steps;
  repeat rewrite project_app; repeat rewrite existsb_app;
  drop_chat; cbn.

Ltac drop_chat_in H :=
  repeat match type of H with
         | context [project ?f (notifyEvents ?W ?a ?b ?c ?d ?st)] =>
             rewrite (project_chat f _ (notifyEvents_Chat W a b c d st)) in H by chat_side
         | context [project ?f ?d] =>
             match goal with
             | Hd : Chat d |- _ => rewrite (project_chat f d Hd) in H by chat_side
             end
         | context [existsb ?f (notifyEvents ?W ?a ?b ?c ?d ?st)] =>
             rewrite (existsb_chat f _ (notifyEvents_Chat W a b c d st)) in H by chat_side
         | context [existsb ?f ?d] =>
             match goal with
             | Hd : Chat d |- _ => rewrite (existsb_chat f d Hd) in H by chat_side
             end
         end.

Ltac read_trace_in H :=
  unfold setupEvents, loginEvents, handlerEvents in H;
  unfold successNotified, downstreamBegun, handlerEntered, errorMsgRead,
    urlRead, countReturned, fetches, logLines, browserCalls, notifications,
    screenshotsWritten, downstreamCalls, fills, contextCloses, browserCloses,
    thrownByBrowser, downstreamPerformed, steps in H;
  repeat rewrite project_app in H; repeat rewrite existsb_app in H;
  drop_chat_in H; cbn in H.

Ltac in_trace :=
  solve [ apply in_eq
        | left; reflexivity
        | apply in_or_app; left; in_trace
        | apply in_or_app; right; in_trace
        | right; in_trace ].

(** Replaces [E : run W = abort ...] or [E : run W = finish ...] by the
    state and outcome the run ends with. *)
Ltac conclude W E :=
  match type of E with
  | _ = abort W ?e ?st =>
      let shot := fresh "shot" in
      let present := fresh "present" in
      let d := fresh "d" in
      let cl := fresh "cl" in
      let out := fresh "out" in
      let E' := fresh "E" in
      let Hd := fresh "Hd" in
      let Hcl := fresh "Hcl" in
      destruct (abort_spec W e st) as (shot & present & d & cl & out & E' & Hd & Hcl);
      rewrite E' in E; clear E'
  | _ = finish W ?st =>
      let cl := fresh "cl" in
      let out := fresh "out" in
      let E' := fresh "E" in
      let Hcl := fresh "Hcl" in
      destruct (finish_spec W st) as (cl & out & E' & Hcl);
      rewrite E' in E; clear E'
  end;
  cbn [trace exitCode] in E.

(** ** After a successful login *)

Section Success.

Variable W : World.

(** Whatever throws, the steps performed after a successful login are an
    initial part of [downstreamSteps]. *)
Lemma downstream_prefix u h :
  urlRead (events W) = Some u ->
  countReturned successHintLocator (events W) = Some h ->
  loginJudgedOk u h = true ->
  exists later, downstreamSteps = downstreamPerformed (events W) ++ later.
Proof.
  intros Hu Hh J.
  destruct (url_path W u Hu) as (un & pw & idle & Eu & Ep & E).
  unfold events in *. unfold fromJudgement in E.
  gstep E. gcase W E; [|gdead Hh E].
  assert (v = h) as ->.
  { rewrite E in Hh. extends Hh. vm_compute in Hh. congruence. }
  clear Hh Hu. rewrite J in E. unfold loginSucceeded in E.
  gstep E.
  do 4 (gstep E; gcase W E;
        [|conclude W E; rewrite E; cbn [fst trace]; read_trace;
          destruct Hcl; cbn; eexists; reflexivity]).
  gstep E.
  do 5 (gstep E; gcase W E;
        [|conclude W E; rewrite E; cbn [fst trace]; read_trace;
          destruct Hcl; cbn; eexists; reflexivity]).
  gstep E.
  do 6 (gstep E; gcase W E;
        [|conclude W E; rewrite E; cbn [fst trace]; read_trace;
          destruct Hcl; cbn; eexists; reflexivity]).
  gstep E. gstep E. conclude W E. rewrite E. cbn [fst trace].
  read_trace. destruct Hcl; cbn; exists []; reflexivity.
Qed.

End Success.

(** ** The Notifier does not interfere with the run *)

Lemma runnerView_app l1 l2 : runnerView (l1 ++ l2) = runnerView l1 ++ runnerView l2.
Proof. apply filter_app. Qed.

Lemma runnerView_Chat d : Chat d -> runnerView d = [].
Proof.
  intros H. induction H as [|ev d Hev _ IH]; [reflexivity|].
  cbn [runnerView filter]. fold (runnerView d). rewrite IH.
  destruct ev as [[] ?|[] ?| |]; cbn in Hev |- *; try discriminate; reflexivity.
Qed.

Lemma Sim_ret {A} (a : A) : Sim (ret a) (ret a).
Proof. intros st1 st2 H1 H2. cbn. auto. Qed.

Lemma Sim_throw {A} (e : Exn) : Sim (@throw A e) (throw e).
Proof. intros st1 st2 H1 H2. cbn. auto. Qed.

Lemma Sim_setExitCode c : Sim (setExitCode c) (setExitCode c).
Proof. intros st1 st2 H1 H2. cbn. auto. Qed.

Lemma Sim_bind {A B} (m1 m2 : M A) (k1 k2 : A -> M B) :
  Sim m1 m2 -> (forall a, Sim (k1 a) (k2 a)) -> Sim (bind m1 k1) (bind m2 k2).
Proof.
  intros Hm Hk st1 st2 H1 H2. unfold bind.
  destruct (Hm st1 st2 H1 H2) as (V & X & R).
  destruct (m1 st1) as [s1 r1], (m2 st2) as [s2 r2]. cbn [fst snd] in *. subst r2.
  destruct r1 as [a|e]; [apply Hk; assumption | cbn; auto].
Qed.

Lemma Sim_bind_any {A B} (m1 m2 : M A) (k1 k2 : A -> M B) :
  SimAny m1 m2 -> (forall a b, Sim (k1 a) (k2 b)) -> Sim (bind m1 k1) (bind m2 k2).
Proof.
  intros Hm Hk st1 st2 H1 H2. unfold bind.
  destruct (Hm st1 st2 H1 H2) as (V & X & a & b & R1 & R2).
  destruct (m1 st1) as [s1 r1], (m2 st2) as [s2 r2]. cbn [fst snd] in *. subst r1 r2.
  apply Hk; assumption.
Qed.

Lemma Sim_try_catch {A} (m1 m2 : M A) (h1 h2 : Exn -> M A) :
  Sim m1 m2 -> (forall e, Sim (h1 e) (h2 e)) -> Sim (try_catch m1 h1) (try_catch m2 h2).
Proof.
  intros Hm Hh st1 st2 H1 H2. unfold try_catch.
  destruct (Hm st1 st2 H1 H2) as (V & X & R).
  destruct (m1 st1) as [s1 r1], (m2 st2) as [s2 r2]. cbn [fst snd] in *. subst r2.
  destruct r1 as [a|e]; [cbn; auto | apply Hh; assumption].
Qed.

Lemma Sim_try_finally {A} (m1 m2 : M A) (f1 f2 : M unit) :
  Sim m1 m2 -> Sim f1 f2 -> Sim (try_finally m1 f1) (try_finally m2 f2).
Proof.
  intros Hm Hf st1 st2 H1 H2. unfold try_finally.
  destruct (Hm st1 st2 H1 H2) as (V & X & R).
  destruct (m1 st1) as [s1 r1], (m2 st2) as [s2 r2]. cbn [fst snd] in *. subst r2.
  destruct (Hf s1 s2 V X) as (V' & X' & R').
  destruct (f1 s1) as [t1 q1], (f2 s2) as [t2 q2]. cbn [fst snd] in *. subst q2.
  destruct q1 as [[]|e]; cbn; auto.
Qed.

Section SameBrowser.

Variables W1 W2 : World.
Hypothesis same : SameBrowser W1 W2.

Lemma Sim_call (o : Op) : isBrowserOp o = true -> Sim (call W1 o) (call W2 o).
Proof.
  intros Ho st1 st2 H1 H2. unfold call. cbn [fst snd record trace exitCode].
  destruct same as (_ & _ & Hr & _).
  rewrite (Hr (trace st1) (trace st2) o Ho H1).
  rewrite !runnerView_app, H1. auto.
Qed.

Lemma Sim_read_url : Sim (read W1 page_url) (read W2 page_url).
Proof.
  intros st1 st2 H1 H2. unfold read. cbn [fst snd record trace exitCode].
  destruct same as (_ & _ & _ & Ho).
  rewrite (Ho (trace st1) (trace st2) H1).
  rewrite !runnerView_app, H1. auto.
Qed.

Lemma SimAny_read_existsSync p1 p2 :
  SimAny (read W1 (fs_existsSync p1)) (read W2 (fs_existsSync p2)).
Proof.
  intros st1 st2 H1 H2. unfold read. cbn [fst snd record trace exitCode].
  rewrite !runnerView_app. cbn. rewrite !app_nil_r. eauto 6.
Qed.

Lemma Sim_notifyTelegram ok1 stage1 msg1 sp1 ok2 stage2 msg2 sp2 :
  Sim (notifyTelegram W1 ok1 stage1 msg1 sp1) (notifyTelegram W2 ok2 stage2 msg2 sp2).
Proof.
  intros st1 st2 H1 H2. rewrite !notifyTelegram_eq. cbn [fst snd trace exitCode].
  rewrite !runnerView_app. cbn [runnerView filter isRunnerEvent].
  fold (runnerView (notifyEvents W1 ok1 stage1 msg1 sp1 st1)).
  fold (runnerView (notifyEvents W2 ok2 stage2 msg2 sp2 st2)).
  rewrite (runnerView_Chat _ (notifyEvents_Chat W1 ok1 stage1 msg1 sp1 st1)).
  rewrite (runnerView_Chat _ (notifyEvents_Chat W2 ok2 stage2 msg2 sp2 st2)).
  rewrite !app_nil_r. auto.
Qed.

Ltac sim :=
  repeat first
    [ apply Sim_ret
    | apply Sim_throw
    | apply Sim_setExitCode
    | apply Sim_notifyTelegram
    | apply Sim_read_url
    | apply Sim_call; reflexivity
    | apply Sim_bind_any; [apply SimAny_read_existsSync | intros ? ?]
    | apply Sim_bind; [|intro]
    | apply Sim_try_catch; [|intro]
    | apply Sim_try_finally
    | match goal with
      | |- Sim (if ?b then _ else _) (if ?b then _ else _) => destruct b
      end ].

Lemma Sim_envOrThrow name :
  envTruthy W1 name = envTruthy W2 name ->
  Sim (envOrThrow W1 name) (envOrThrow W2 name).
Proof.
  intros E. unfold envOrThrow. rewrite E.
  destruct (envTruthy W2 name); [apply Sim_ret | apply Sim_throw].
Qed.

Lemma Sim_main : Sim (main W1) (main W2).
Proof.
  unfold main. destruct same as (Eu & Ep & _).
  apply Sim_bind; [apply Sim_envOrThrow; exact Eu | intros username].
  apply Sim_bind; [apply Sim_envOrThrow; exact Ep | intros password].
  unfold workflow, handler, teardown, swallow, humanCheckExit, loginSucceeded, loginFailed.
  sim.
Qed.

End SameBrowser.

(** ** What a computation does to [process.exitCode] *)

Lemma Keeps_ret I {A} (a : A) : Keeps I (ret a).
Proof. intros st H. exact H. Qed.

Lemma Keeps_throw I {A} (e : Exn) : Keeps I (@throw A e).
Proof. intros st H. exact H. Qed.

Lemma Keeps_setExitCode (I : option Z -> Prop) c : I (Some c) -> Keeps I (setExitCode c).
Proof. intros Hc st _. exact Hc. Qed.

Lemma Keeps_bind I {A B} (m : M A) (k : A -> M B) :
  Keeps I m -> (forall a, Keeps I (k a)) -> Keeps I (bind m k).
Proof.
  intros Hm Hk st H. unfold bind. specialize (Hm st H).
  destruct (m st) as [st1 [a|e]]; cbn [fst] in *; [apply Hk|]; assumption.
Qed.

Lemma Keeps_try_catch I {A} (m : M A) (h : Exn -> M A) :
  Keeps I m -> (forall e, Keeps I (h e)) -> Keeps I (try_catch m h).
Proof.
  intros Hm Hh st H. unfold try_catch. specialize (Hm st H).
  destruct (m st) as [st1 [a|e]]; cbn [fst] in *; [|apply Hh]; assumption.
Qed.

Lemma Keeps_try_finally I {A} (m : M A) (f : M unit) :
  Keeps I m -> Keeps I f -> Keeps I (try_finally m f).
Proof.
  intros Hm Hf st H. unfold try_finally. specialize (Hm st H).
  destruct (m st) as [st1 r]. cbn [fst] in *. specialize (Hf st1 Hm).
  destruct (f st1) as [st2 [[]|e]]; exact Hf.
Qed.

Lemma Keeps_call I W o : Keeps I (call W o).
Proof. intros st H. exact H. Qed.

Lemma Keeps_read I W q : Keeps I (read W q).
Proof. intros st H. exact H. Qed.

Lemma Keeps_notifyTelegram I W ok stage msg sp : Keeps I (notifyTelegram W ok stage msg sp).
Proof. intros st H. rewrite notifyTelegram_eq. exact H. Qed.

Lemma Keeps_envOrThrow I W name : Keeps I (envOrThrow W name).
Proof. unfold envOrThrow. destruct (envTruthy W name); intros st H; exact H. Qed.

Ltac keeps :=
  repeat first
    [ apply Keeps_ret
    | apply Keeps_throw
    | apply Keeps_call
    | apply Keeps_read
    | apply Keeps_notifyTelegram
    | apply Keeps_envOrThrow
    | apply Keeps_setExitCode; unfold knownCode; tauto
    | apply Keeps_bind; [|intro]
    | apply Keeps_try_catch; [|intro]
    | apply Keeps_try_finally
    | match goal with
      | |- Keeps _ (if ?b then _ else _) => destruct b
      end ].

(** ** The model at work *)

Example stillOnLogin_login_page : stillOnLogin LOGIN_URL = true.
Proof. reflexivity. Qed.

Example stillOnLogin_ignores_case :
  stillOnLogin "https://ctrl.lunes.host/Auth/LOGIN?next=/" = true.
Proof. reflexivity. Qed.

Example stillOnLogin_home : stillOnLogin "https://ctrl.lunes.host/" = false.
Proof. reflexivity. Qed.

Example notifyText_without_message :
  notifyText false "登录失败" "" "2025-01-01T00:00:00.000Z"
  = ("🔔 Lunes 自动操作：❌ 失败" ++ nl ++ "阶段：登录失败" ++ nl
       ++ "时间：2025-01-01T00:00:00.000Z")%string.
Proof. reflexivity. Qed.

Example happy_run_fetches :
  map requestUrl (fetches (events happyWorld))
  = [ "https://api.telegram.org/bott/sendMessage";
      "https://api.telegram.org/bott/sendPhoto";
      "https://api.telegram.org/bott/sendMessage";
      "https://api.telegram.org/bott/sendPhoto";
      "https://api.telegram.org/bott/sendMessage";
      "https://api.telegram.org/bott/sendMessage";
      "https://api.telegram.org/bott/sendPhoto" ]%string.
Proof. vm_compute. reflexivity. Qed.

Example challenge_run_steps :
  steps (events challengeWorld)
  = [ Called chromium_launch; Called browser_newContext; Called context_newPage;
      Called (page_goto LOGIN_URL 60000);
      Called (locator_count humanCheckText);
      Called (page_screenshot (screenshot "01-human-check"));
      Notified false "打开登录页" (Some (screenshot "01-human-check"));
      Called context_close; Called browser_close ].
Proof. vm_compute. reflexivity. Qed.

Example rejected_run_steps :
  skipn (length (loginSteps "u" "p")) (steps (events rejectedWorld))
  = [ Called (locator_count errorMsgNode);
      Called (locator_innerText (first errorMsgNode));
      Notified false "登录失败" (Some (screenshot "03-after-submit"));
      Called context_close; Called browser_close ].
Proof. vm_compute. reflexivity. Qed.

(** ** Every run follows a script *)

Lemma steps_stepOf tr : steps tr = project stepOf tr.
Proof. reflexivity. Qed.

Lemma steps_app l1 l2 : steps (l1 ++ l2) = steps l1 ++ steps l2.
Proof. apply project_app. Qed.

Lemma steps_Chat d : Chat d -> steps d = [].
Proof.
  intros H. apply project_chat; [exact H|].
  intros [[] ?|[] ?| |]; cbn; intros; first [reflexivity | discriminate].
Qed.

Lemma uncaughtFrom_app prev l1 l2 :
  uncaughtFrom prev (l1 ++ l2)
  = uncaughtFrom prev l1 ++ uncaughtFrom (lastCallFrom prev l1) l2.
Proof.
  revert prev. induction l1 as [|ev l1 IH]; intros prev; [reflexivity|].
  destruct ev as [o r| | |]; cbn [app uncaughtFrom lastCallFrom]; try apply IH.
  destruct (isBrowserOp o); [|apply IH].
  rewrite IH, app_assoc. reflexivity.
Qed.

Lemma lastCallFrom_app prev l1 l2 :
  lastCallFrom prev (l1 ++ l2) = lastCallFrom (lastCallFrom prev l1) l2.
Proof.
  revert prev. induction l1 as [|ev l1 IH]; intros prev; [reflexivity|].
  destruct ev as [o r| | |]; cbn [app lastCallFrom]; apply IH.
Qed.

(** The Notifier makes no browser call. *)
Lemma uncaughtFrom_Chat prev d : Chat d -> uncaughtFrom prev d = [].
Proof.
  intros H. induction H as [|ev d Hev _ IH]; [reflexivity|].
  destruct ev as [[] ?|[] ?| |]; cbn in Hev |- *; try discriminate Hev; exact IH.
Qed.

Lemma lastCallFrom_Chat prev d : Chat d -> lastCallFrom prev d = prev.
Proof.
  intros H. induction H as [|ev d Hev _ IH]; [reflexivity|].
  destruct ev as [[] ?|[] ?| |]; cbn in Hev |- *; try discriminate Hev; exact IH.
Qed.

Lemma Result_weaken (S S' : Plan) prev st res :
  (forall l c, S l c -> S' l c) -> Result S prev st res -> Result S' prev st res.
Proof.
  intros HS (d & E & H). exists d. split; [exact E|].
  destruct (snd res) as [[]|e].
  - destruct H as (c & H & Hc). eauto.
  - destruct H as (He & later & c & H). eauto 6.
Qed.

(** The events [pre] come before the body: they make the steps [ss], none
    of their rejections is left undiscarded, and their last browser call
    is [prev']. *)
Lemma Result_prepend (S S' : Plan) ss prev prev' st st1 pre res :
  trace st1 = trace st ++ pre ->
  steps pre = ss ->
  uncaughtFrom prev pre = [] ->
  lastCallFrom prev pre = prev' ->
  (forall l c, S l c -> S' (ss ++ l) c) ->
  Result S prev' st1 res -> Result S' prev st res.
Proof.
  intros Et Hs Hu Hl HS (d & E & H). exists (pre ++ d).
  split; [rewrite E, Et, app_assoc; reflexivity|].
  rewrite steps_app, Hs.
  destruct (snd res) as [[]|e].
  - destruct H as (c & H & Hc & Hd). exists c.
    split; [apply HS; exact H|]. split; [exact Hc|].
    rewrite uncaughtFrom_app, Hu, Hl. exact Hd.
  - destruct H as ((d' & o & -> & Ho & Hd & Hx) & later & c & H). split.
    + exists (pre ++ d'), o. rewrite app_assoc.
      rewrite uncaughtFrom_app, lastCallFrom_app, Hu, Hl. auto.
    + exists later, c. rewrite <- app_assoc. apply HS. exact H.
Qed.

Lemma Result_quiet (S : Plan) prev st st1 pre res :
  trace st1 = trace st ++ pre -> steps pre = [] ->
  uncaughtFrom prev pre = [] -> lastCallFrom prev pre = prev ->
  Result S prev st1 res -> Result S prev st res.
Proof.
  intros Et Hs Hu Hl. apply (Result_prepend S S [] prev prev st st1 pre); auto.
Qed.

Lemma Result_after (S : Plan) s prev prev' st st1 pre res :
  trace st1 = trace st ++ pre -> steps pre = [s] ->
  uncaughtFrom prev pre = [] -> lastCallFrom prev pre = prev' ->
  Result S prev' st1 res -> Result (after s S) prev st res.
Proof.
  intros Et Hs Hu Hl. apply (Result_prepend S (after s S) [s] prev prev' st st1 pre); auto.
  intros l c H. exists l. auto.
Qed.

Lemma Follows_inhabited (S : Plan) prev (m : M unit) :
  Follows S prev m -> exists l c, S l c.
Proof.
  intros H. destruct (H init) as (d & _ & H'). destruct (snd (m init)) as [[]|e].
  - destruct H' as (c & H' & _). eauto.
  - destruct H' as (_ & later & c & H'). eauto.
Qed.

Section Following.

Variable W : World.

Lemma Follows_setExitCode prev c : Follows (finished c) prev (setExitCode c).
Proof.
  intros st. exists []. cbn. rewrite app_nil_r. split; [reflexivity|].
  exists c. repeat split.
Qed.

Lemma Follows_call (o : Op) (k : Resp o -> M unit) (S : Plan) prev :
  isBrowserOp o = true ->
  discarded prev o = false ->
  (forall v, Follows S (Some o) (k v)) ->
  Follows (after (Called o) S) prev (bind (call W o) k).
Proof.
  intros Ho Hx Hk st. rewrite bind_call.
  destruct (respond W (trace st) o) as [v|e].
  - eapply Result_after; [| | | |apply Hk]; [reflexivity| | |];
      cbn; rewrite Ho; reflexivity.
  - exists [EvCall o (Thrown e)]. split; [reflexivity|]. cbn [snd]. split.
    + exists [], o. auto.
    + destruct (Follows_inhabited S _ _ (Hk (answer (fun _ => 0%nat) o))) as (l & c & H).
      exists l, c. exists l. split; [|exact H].
      unfold steps, project. cbn. rewrite Ho. reflexivity.
Qed.

Lemma Follows_read (q : Query) (k : QResp q -> M unit) (S : Plan) prev :
  (forall v, Follows S prev (k v)) -> Follows S prev (bind (read W q) k).
Proof.
  intros Hk st. unfold bind, read.
  eapply Result_quiet; [| | | |apply Hk]; reflexivity.
Qed.

Lemma Follows_ret {A} (a : A) (k : A -> M unit) (S : Plan) prev :
  Follows S prev (k a) -> Follows S prev (bind (ret a) k).
Proof. intros Hk st. rewrite bind_ret. apply Hk. Qed.

Lemma Follows_notify ok stage msg sp (k : unit -> M unit) (S : Plan) prev :
  Follows S prev (k tt) ->
  Follows (after (Notified ok stage sp) S) prev
    (bind (notifyTelegram W ok stage msg sp) k).
Proof.
  intros Hk st. unfold bind. rewrite notifyTelegram_eq.
  pose proof (notifyEvents_Chat W ok stage msg sp st) as Hc.
  eapply Result_after; [| | | |apply Hk]; [reflexivity| | |].
  - change (steps ([EvNotify ok stage msg sp] ++ notifyEvents W ok stage msg sp st)
            = [Notified ok stage sp]).
    rewrite steps_app, (steps_Chat _ Hc). reflexivity.
  - cbn [uncaughtFrom]. apply uncaughtFrom_Chat, Hc.
  - cbn [lastCallFrom]. apply lastCallFrom_Chat, Hc.
Qed.

(** Line 98: the wait whose rejection is discarded is a step like another,
    but it never ends the body. *)
Lemma Follows_swallow_wait t (k : unit -> M unit) (S : Plan) prev :
  discarded prev (page_waitForLoadState t) = true ->
  Follows S (Some (page_waitForLoadState t)) (k tt) ->
  Follows (after (Called (page_waitForLoadState t)) S) prev
    (bind (swallow (call W (page_waitForLoadState t))) k).
Proof.
  intros Hx Hk st. unfold bind, swallow, try_catch, call.
  destruct (respond W (trace st) (page_waitForLoadState t)) as [[]|e];
    (eapply Result_after; [| | | |apply Hk]; [reflexivity|reflexivity| |reflexivity]);
    cbn [summary uncaughtFrom isBrowserOp app]; [|rewrite Hx]; reflexivity.
Qed.

(** Line 160: the same for the text whose rejection gives the empty
    string. *)
Lemma Follows_caught_innerText l (k : string -> M unit) (S : Plan) prev :
  (forall v, Follows S (Some (locator_innerText l)) (k v)) ->
  Follows (after (Called (locator_innerText l)) S) prev
    (bind (try_catch (call W (locator_innerText l)) (fun _ => ret ""%string)) k).
Proof.
  intros Hk st. unfold bind, try_catch, call.
  destruct (respond W (trace st) (locator_innerText l)) as [v|e];
    (eapply Result_after; [| | | |apply Hk]; reflexivity).
Qed.

Lemma Follows_either (b : bool) (m1 m2 : M unit) (S1 S2 : Plan) prev :
  Follows S1 prev m1 -> Follows S2 prev m2 ->
  Follows (either S1 S2) prev (if b then m1 else m2).
Proof.
  intros H1 H2 st. destruct b.
  - eapply Result_weaken; [|apply H1]. intros l c H. left. exact H.
  - eapply Result_weaken; [|apply H2]. intros l c H. right. exact H.
Qed.

Lemma Follows_bind_either {A} (b : bool) (m1 m2 : M A) (k : A -> M unit)
    (S1 S2 : Plan) prev :
  Follows S1 prev (bind m1 k) -> Follows S2 prev (bind m2 k) ->
  Follows (either S1 S2) prev (bind (if b then m1 else m2) k).
Proof.
  intros H1 H2. destruct b.
  - intros st. eapply Result_weaken; [|apply H1]. intros l c H. left. exact H.
  - intros st. eapply Result_weaken; [|apply H2]. intros l c H. right. exact H.
Qed.

Ltac follows :=
  repeat first
    [ apply Follows_setExitCode
    | eapply Follows_call; [reflexivity | reflexivity | intro; cbv beta]
    | eapply Follows_read; intro; cbv beta
    | eapply Follows_notify; cbv beta
    | eapply Follows_swallow_wait; [reflexivity | cbv beta]
    | eapply Follows_caught_innerText; intro; cbv beta
    | eapply Follows_ret; cbv beta
    | eapply Follows_bind_either
    | eapply Follows_either ].

(** The body of the [try] follows one of the four scripts. *)
Lemma workflow_follows username password :
  Follows (fun l c => In ([ Called chromium_launch; Called browser_newContext;
                            Called context_newPage ] ++ l, c)
                        (scripts username password))
    (Some context_newPage)
    (workflow W username password).
Proof.
  intros st. eapply Result_weaken; [|].
  2: { revert st. unfold workflow, humanCheckExit, loginSucceeded, loginFailed.
       cbv zeta. follows. }
  intros l c H. unfold after, either, finished in H.
  unfold scripts, challengeScript, successScript, failureScript, loginSteps, downstreamSteps.
  repeat match type of H with
         | exists _, _ => destruct H as (? & -> & H)
         | _ \/ _ => destruct H as [H|H]
         | _ /\ _ => destruct H as [-> ->]
         end;
    cbn [app In]; auto 6.
Qed.

End Following.

(** Every script ends with a notification. *)
Lemma scripts_end_notified username password l s c :
  In (l ++ [s], c) (scripts username password) ->
  exists ok stage sp, s = Notified ok stage sp.
Proof.
  intros H.
  assert (exists script, l ++ [s] = script
                         /\ exists ok stage sp,
                             last script (Called chromium_launch) = Notified ok stage sp)
    as (script & E & ok & stage & sp & Hl).
  { unfold scripts in H. cbn [In] in H.
    destruct H as [H|[H|[H|[H|[]]]]]; injection H as H _;
      eexists; (split; [symmetry; exact H|]); do 3 eexists; reflexivity. }
  exists ok, stage, sp. rewrite <- Hl, <- E. symmetry. apply last_last.
Qed.


Section Outlines.

Variable W : World.

(** The shape of every run with both credentials. *)
Lemma run_course username password :
  envTruthy W "LUNES_USERNAME" = Some username ->
  envTruthy W "LUNES_PASSWORD" = Some password ->
  exists script code,
    In (script, code) (scripts username password)
    /\ Course script code (events W) (exitStatus W).
Proof.
  intros Eu Ep. unfold events, exitStatus.
  destruct (run_cases W)
    as [(name & [->| ->] & En & _)
       |(un & pw & Eu' & Ep' & [(e & E)|[(e & E)|[(e & E)|E]]])];
    try congruence.
  1-3: rewrite E; cbn [fst snd trace]; exists challengeScript, 2%Z;
    (split; [left; reflexivity|]).
  - apply (course_not_started _ _ 0%nat chromium_launch e). reflexivity.
  - apply (course_not_started _ _ 1%nat browser_newContext e). reflexivity.
  - apply (course_not_started _ _ 2%nat context_newPage e). reflexivity.
  - assert (un = username) as -> by congruence.
    assert (pw = password) as -> by congruence.
    rewrite guarded_cases in E.
    destruct (workflow_follows W username password
                {| trace := setupEvents; exitCode := None |}) as (d & Et & H).
    destruct (workflow W username password {| trace := setupEvents; exitCode := None |})
      as [st [[]|e]]; cbn [fst snd trace] in *.
    + destruct H as (c & Hs & Hc & Hu).
      destruct (finish_spec W st) as (cl & out & E' & Hcl).
      rewrite E' in E. rewrite E. cbn [fst snd trace exitCode]. rewrite Hc, Et.
      eexists _, c. split; [exact Hs|].
      apply (course_completed _ c (setupEvents ++ d) cl out); [| |exact Hcl].
      * rewrite steps_app. reflexivity.
      * unfold uncaught. rewrite uncaughtFrom_app. exact Hu.
    + destruct H as ((d' & o & -> & Ho & Hu & Hx) & later & c & Hs).
      destruct (abort_spec W e st) as (shot & present & dn & cl & out & E' & Hd & Hcl).
      rewrite E' in E. rewrite E. cbn [fst snd trace exitCode]. rewrite Et.
      eexists _, c. split; [exact Hs|].
      replace (match out with Normal _ => 1%Z | Thrown _ => 1%Z end) with 1%Z
        by (destruct out; reflexivity).
      replace ((setupEvents ++ d' ++ [EvCall o (Thrown e)])
                 ++ handlerEvents e shot present ++ dn ++ cl)
        with ((setupEvents ++ d') ++ [EvCall o (Thrown e)]
                ++ handlerEvents e shot present ++ dn ++ cl)
        by (repeat rewrite <- app_assoc; reflexivity).
      apply course_cut_short with (later := later) (out := out); try assumption.
      * rewrite <- app_assoc. rewrite (steps_app setupEvents). reflexivity.
      * intros ->. rewrite app_nil_r, steps_app in Hs.
        replace (steps [EvCall o (Thrown e)]) with [Called o] in Hs
          by (unfold steps, project; cbn; rewrite Ho; reflexivity).
        rewrite app_assoc in Hs.
        apply scripts_end_notified in Hs. destruct Hs as (? & ? & ? & Hs). discriminate Hs.
      * rewrite steps_app. rewrite length_app. cbn. lia.
Qed.

End Outlines.

Lemma Course_Outline script code tr status :
  Course script code tr status -> Outline script code tr status.
Proof.
  intros [k o e Hk|body cl out Hb Hu Hcl
         |pre o e later shot present d cl out Ho Hu Hx Hs Hl Hp Hd Hcl].
  - apply outline_not_started. exact Hk.
  - apply (outline_completed _ _ body cl out); assumption.
  - apply outline_cut_short with (later := later) (out := out); assumption.
Qed.

Lemma run_outline W username password :
  envTruthy W "LUNES_USERNAME" = Some username ->
  envTruthy W "LUNES_PASSWORD" = Some password ->
  exists script code,
    In (script, code) (scripts username password)
    /\ Outline script code (events W) (exitStatus W).
Proof.
  intros Eu Ep. destruct (run_course W username password Eu Ep) as (script & code & Hin & H).
  exists script, code. split; [exact Hin | apply Course_Outline, H].
Qed.

(** ** What the outline of a run gives *)

Lemma project_steps {A} (f : Event -> option A) (g : Step -> list A) tr :
  (forall ev, match f ev with Some a => [a] | None => [] end
              = match stepOf ev with Some s => g s | None => [] end) ->
  project f tr = flat_map g (steps tr).
Proof.
  intros H. induction tr as [|ev tr IH]; [reflexivity|].
  change (steps (ev :: tr))
    with (match stepOf ev with Some s => [s] | None => [] end ++ steps tr).
  change (project f (ev :: tr))
    with (match f ev with Some a => [a] | None => [] end ++ project f tr).
  rewrite flat_map_app, IH, H.
  destruct (stepOf ev); cbn; [rewrite app_nil_r|]; reflexivity.
Qed.

Lemma existsb_steps (f : Event -> bool) (g : Step -> bool) tr :
  (forall ev, f ev = match stepOf ev with Some s => g s | None => false end) ->
  existsb f tr = existsb g (steps tr).
Proof.
  intros H. induction tr as [|ev tr IH]; [reflexivity|].
  change (steps (ev :: tr))
    with (match stepOf ev with Some s => [s] | None => [] end ++ steps tr).
  rewrite existsb_app. cbn [existsb]. rewrite IH, H.
  destruct (stepOf ev); cbn; [rewrite orb_false_r|]; reflexivity.
Qed.

Lemma notifications_steps tr : notifications tr = notesOf (steps tr).
Proof. apply project_steps. intros [[] ?| | |]; reflexivity. Qed.

Lemma fills_steps tr : fills tr = fillsOf (steps tr).
Proof. apply project_steps. intros [[] ?| | |]; reflexivity. Qed.

Lemma screenshotCalls_steps tr : screenshotCalls tr = shotsOf (steps tr).
Proof. apply project_steps. intros [[] ?| | |]; reflexivity. Qed.

Lemma firstn_length_app {A} (l1 l2 : list A) : firstn (length l1) (l1 ++ l2) = l1.
Proof. rewrite firstn_app, firstn_all, Nat.sub_diag. cbn. apply app_nil_r. Qed.

Lemma scripts_cases username password script code :
  In (script, code) (scripts username password) ->
  (script = challengeScript /\ code = 2%Z)
  \/ (script = successScript username password /\ code = 0%Z)
  \/ (exists withText, script = failureScript username password withText /\ code = 1%Z).
Proof.
  unfold scripts. cbn [In].
  intros [H|[H|[H|[H|[]]]]]; injection H as <- <-; eauto 6.
Qed.

(** The steps of a run, from its outline. *)
Lemma outline_steps script code tr status :
  Outline script code tr status ->
  (exists k, (k < 3)%nat /\ steps tr = firstn (S k) challengeScript)
  \/ (exists closing,
        steps tr = script ++ closing
        /\ (closing = [Called context_close]
            \/ closing = [Called context_close; Called browser_close]))
  \/ (exists done later sp closing,
        script = done ++ later /\ later <> []
        /\ steps tr = done ++ catchSteps sp ++ closing
        /\ (sp = None \/ sp = Some (screenshot "99-error"))
        /\ (closing = [Called context_close]
            \/ closing = [Called context_close; Called browser_close])).
Proof.
  intros [k o e Hk|body cl out Hb Hcl|pre o e later shot present d cl out Ho Hs Hl Hp Hd Hcl].
  - left. destruct k as [|[|[|k]]]; cbn in Hk; try (destruct k; discriminate Hk);
      injection Hk as <-; [exists 0%nat | exists 1%nat | exists 2%nat];
      (split; [lia | reflexivity]).
  - right. left. rewrite steps_app, Hb.
    destruct Hcl; eexists; (split; [reflexivity|]); auto.
  - right. right.
    rewrite app_assoc, (steps_app (pre ++ _)).
    remember (steps (pre ++ [EvCall o (Thrown e)])) as done eqn:Hdone. clear Hdone.
    rewrite !steps_app, (steps_Chat d Hd).
    change (steps (handlerEvents e shot present))
      with (catchSteps (if present then Some (screenshot "99-error") else None)).
    exists done, later, (if present then Some (screenshot "99-error") else None).
    destruct Hcl; eexists; (split; [exact Hs|]); (split; [exact Hl|]);
      (split; [reflexivity|]); (split; [destruct present; auto|]); auto.
Qed.

(** A script that is cut short has not made its last notification. *)
Lemma cut_short_notes username password script code done later :
  In (script, code) (scripts username password) ->
  script = done ++ later -> later <> [] ->
  exists k, (k < length (notesOf script))%nat /\ notesOf done = firstn k (notesOf script).
Proof.
  intros Hin Hs Hl.
  destruct (exists_last Hl) as (later' & s & ->).
  rewrite app_assoc in Hs. rewrite Hs in Hin.
  destruct (scripts_end_notified _ _ _ _ _ Hin) as (ok & stage & sp & ->).
  exists (length (notesOf done)). subst script. unfold notesOf.
  rewrite !flat_map_app. split.
  - rewrite !length_app. cbn. lia.
  - rewrite <- app_assoc. symmetry. apply firstn_length_app.
Qed.

Ltac script_cases H :=
  apply scripts_cases in H;
  destruct H as [(-> & ->)|[(-> & ->)|([] & -> & ->)]].

Ltac closing_cases H := destruct H as [->| ->].


(** ** Runs and their rejections *)

(** When no rejection is left undiscarded, every screenshot asked for
    outside the [catch] block is written. *)
Lemma written_when_none_uncaught prev d :
  uncaughtFrom prev d = [] -> handlerEntered d = false ->
  screenshotsWritten d = screenshotCalls d.
Proof.
  revert prev. induction d as [|ev d IH]; intros prev H He; [reflexivity|].
  destruct ev as [o r| | |]; try exact (IH prev H He).
  cbn [uncaughtFrom] in H. unfold handlerEntered in He. cbn [existsb] in He.
  apply orb_false_iff in He. destruct He as [He1 He].
  destruct (isBrowserOp o) eqn:Ho.
  - apply app_eq_nil in H. destruct H as [HX HT]. specialize (IH _ HT He).
    unfold screenshotsWritten, screenshotCalls, project in *. cbn [flat_map].
    rewrite IH.
    destruct o; try reflexivity. destruct r; [reflexivity|].
    cbn [discarded] in HX. rewrite He1 in HX. discriminate HX.
  - specialize (IH _ H He). destruct o; try discriminate Ho; exact IH.
Qed.

Lemma handlerEntered_steps tr :
  handlerEntered tr
  = existsb (fun s => match s with
                      | Called (page_screenshot p) => String.eqb p (screenshot "99-error")
                      | _ => false
                      end) (steps tr).
Proof. apply existsb_steps. intros [[] ?| | |]; reflexivity. Qed.

Lemma successNotified_steps tr :
  successNotified tr
  = existsb (fun s => match s with
                      | Notified true stage _ => String.eqb stage "登录成功"
                      | _ => false
                      end) (steps tr).
Proof. apply existsb_steps. intros [[] ?| | |]; reflexivity. Qed.

Lemma downstreamBegun_steps tr :
  downstreamBegun tr
  = existsb (fun s => match s with
                      | Called o => isDownstreamOp o
                      | _ => false
                      end) (steps tr).
Proof. apply existsb_steps. intros [[] ?| | |]; reflexivity. Qed.

Lemma existsb_initial_part {A} (g : A -> bool) (l done later : list A) :
  l = done ++ later -> existsb g l = false -> existsb g done = false.
Proof.
  intros -> H. rewrite existsb_app in H. apply orb_false_iff in H. apply H.
Qed.

(** The [catch] block is entered exactly in a run that is cut short. *)
Lemma course_handlerEntered username password script code tr status :
  In (script, code) (scripts username password) ->
  Course script code tr status ->
  handlerEntered tr = true ->
  exists pre o e later shot present d cl out,
    tr = pre ++ [EvCall o (Thrown e)] ++ handlerEvents e shot present ++ d ++ cl
    /\ isBrowserOp o = true
    /\ uncaught pre = []
    /\ discarded (lastCall pre) o = false
    /\ script = steps (pre ++ [EvCall o (Thrown e)]) ++ later
    /\ later <> []
    /\ Chat d
    /\ Closed (Normal tt) cl out
    /\ status = 1%Z.
Proof.
  intros Hin HC H.
  destruct HC as [k o e Hk|body cl out Hb Hu Hcl
                 |pre o e later shot present d cl out Ho Hu Hx Hs Hl Hp Hd Hcl].
  - exfalso. destruct k as [|[|[|k]]]; cbn in Hk; try (destruct k; discriminate Hk);
      injection Hk as <-; discriminate H.
  - exfalso. unfold handlerEntered in H. rewrite existsb_app in H.
    fold (handlerEntered body) in H. rewrite handlerEntered_steps, Hb in H.
    destruct Hcl; script_cases Hin; vm_compute in H; discriminate H.
  - exists pre, o, e, later, shot, present, d, cl, out. repeat split; assumption.
Qed.

Lemma course_not_entered username password script code tr status :
  In (script, code) (scripts username password) ->
  Course script code tr status ->
  In (EvCall context_newPage (Normal VUnit)) tr ->
  handlerEntered tr = false ->
  exists body cl out,
    tr = body ++ cl
    /\ steps body = script
    /\ uncaught body = []
    /\ Closed (Normal tt) cl out
    /\ status = match out with Normal _ => code | Thrown _ => 1%Z end.
Proof.
  intros Hin HC Hp H.
  destruct HC as [k o e Hk|body cl out Hb Hu Hcl
                 |pre o e later shot present d cl out Ho Hu Hx Hs Hl Hq Hd Hcl].
  - exfalso. destruct k as [|[|[|k]]]; cbn in Hk; try (destruct k; discriminate Hk);
      injection Hk as <-; cbn in Hp; intuition discriminate.
  - exists body, cl, out. auto.
  - exfalso. unfold handlerEntered in H. rewrite !existsb_app in H.
    cbn in H. rewrite !orb_true_r in H. discriminate H.
Qed.

(** A run without any rejection left undiscarded performs its script to
    the end and closes. *)
Lemma course_none_uncaught script code tr status :
  Course script code tr status ->
  uncaught tr = [] ->
  exists body,
    tr = body ++ [EvCall context_close (Normal VUnit); EvCall browser_close (Normal VUnit)]
    /\ steps body = script
    /\ uncaught body = []
    /\ status = code.
Proof.
  intros HC H. unfold uncaught in *.
  destruct HC as [k o e Hk|body cl out Hb Hu Hcl
                 |pre o e later shot present d cl out Ho Hu Hx Hs Hl Hq Hd Hcl].
  - exfalso. destruct k as [|[|[|k]]]; cbn in Hk; try (destruct k; discriminate Hk);
      injection Hk as <-; discriminate H.
  - rewrite uncaughtFrom_app in H. apply app_eq_nil in H. destruct H as [_ H].
    destruct Hcl; try discriminate H. exists body. auto.
  - exfalso. rewrite uncaughtFrom_app in H. apply app_eq_nil in H. destruct H as [_ H].
    cbn [app uncaughtFrom] in H. rewrite Ho in H. fold (lastCall pre) in H.
    rewrite Hx in H. discriminate H.
Qed.

(** A rejection that is not discarded costs the run its status. *)
Lemma course_uncaught_status script code tr status :
  Course script code tr status ->
  uncaught tr <> [] ->
  status = 1%Z.
Proof.
  intros HC H.
  destruct HC as [k o e Hk|body cl out Hb Hu Hcl
                 |pre o e later shot present d cl out Ho Hu Hx Hs Hl Hq Hd Hcl];
    try reflexivity.
  destruct out as [[]|e]; [|reflexivity].
  exfalso. apply H. unfold uncaught in *. rewrite uncaughtFrom_app, Hu.
  inversion Hcl. reflexivity.
Qed.

(** A run that notified the success of the login follows the script of a
    successful login. *)
Lemma notified_success_script username password script code tr status :
  In (script, code) (scripts username password) ->
  Course script code tr status ->
  successNotified tr = true ->
  script = successScript username password /\ code = 0%Z.
Proof.
  intros Hin HC H. rewrite successNotified_steps in H.
  destruct HC as [k o e Hk|body cl out Hb Hu Hcl
                 |pre o e later shot present d cl out Ho Hu Hx Hs Hl Hq Hd Hcl].
  - exfalso. destruct k as [|[|[|k]]]; cbn in Hk; try (destruct k; discriminate Hk);
      injection Hk as <-; discriminate H.
  - rewrite steps_app, existsb_app, Hb in H.
    destruct Hcl; script_cases Hin;
      first [split; reflexivity | vm_compute in H; discriminate H].
  - rewrite app_assoc, steps_app, existsb_app in H.
    assert (existsb (fun s => match s with
                              | Notified true stage _ => String.eqb stage "登录成功"
                              | _ => false
                              end) (steps (handlerEvents e shot present ++ d ++ cl)) = false)
      as Hf.
    { rewrite !steps_app, (steps_Chat d Hd), !existsb_app. destruct Hcl; reflexivity. }
    rewrite Hf, orb_false_r in H.
    script_cases Hin; first [split; reflexivity | exfalso];
      rewrite (existsb_initial_part _ _ _ _ Hs) in H by reflexivity; discriminate H.
Qed.

Section Judgement.

Variable W : World.

(** Once the URL [u] is read at line 106, the logged-in markers are
    counted; when the count returns and the login is judged successful the
    success is notified, and when the count throws the [catch] block is
    entered. *)
Lemma judged_cases u :
  urlRead (events W) = Some u ->
  (exists h,
      countReturned successHintLocator (events W) = Some h
      /\ (loginJudgedOk u h = true -> successNotified (events W) = true))
  \/ (countReturned successHintLocator (events W) = None
      /\ handlerEntered (events W) = true).
Proof.
  intros Hu.
  destruct (url_path W u Hu) as (un & pw & idle & _ & _ & E).
  unfold events in *. unfold fromJudgement in E. clear Hu.
  gstep E. gcase W E.
  - left. exists v. split.
    { rewrite E. match goal with |- context [guarded W ?m ?st] =>
        destruct (trace_Emits (guarded W m) st) as (d & ->); [unfold_blocks; emits|]
      end. vm_compute. reflexivity. }
    intros J. rewrite J in E. unfold loginSucceeded in E. gstep E.
    rewrite E. match goal with |- context [guarded W ?m ?st] =>
      destruct (trace_Emits (guarded W m) st) as (d & ->); [unfold_blocks; emits|]
    end.
    cbn [trace]. read_trace. rewrite ?orb_true_r. reflexivity.
  - right. conclude W E. rewrite E. cbn [fst trace].
    split; [destruct Hcl; read_trace; reflexivity|].
    destruct Hcl; read_trace; rewrite ?orb_true_r; reflexivity.
Qed.

End Judgement.

Lemma In_takeWhile {A} (f : A -> bool) (x : A) (l : list A) :
  In x (takeWhile f l) -> In x l.
Proof.
  induction l as [|y l IH]; [auto|]. cbn. destruct (f y); [|intros []].
  intros [H|H]; auto.
Qed.

Lemma In_skipn {A} (x : A) n (l : list A) : In x (skipn n l) -> In x l.
Proof.
  revert l. induction n as [|n IH]; intros l; [auto|].
  destruct l as [|y l]; [auto|]. cbn. auto.
Qed.

(** No event of the Notifier is a browser call. *)
Lemma Chat_no_browser_call d o r :
  Chat d -> In (EvCall o r) d -> isBrowserOp o = false.
Proof.
  intros Hd Hin. unfold Chat in Hd. rewrite Forall_forall in Hd.
  specialize (Hd _ Hin). destruct o; cbn in Hd |- *; first [reflexivity | discriminate Hd].
Qed.

(** Looks for the place of an event [H : In ev tr] in the trace [tr] of a
    finished run: [ev] is one of its explicit events, or an event of the
    Notifier. *)
Ltac find_event H :=
  unfold setupEvents, loginEvents, handlerEvents in H;
  repeat match type of H with
         | In _ (_ ++ _) => apply in_app_or in H; destruct H as [H|H]
         | In _ (_ :: _) => destruct H as [H|H]
         | In _ [] => destruct H
         end.

Ltac not_chat H :=
  match type of H with
  | In (EvCall ?o ?r) (notifyEvents ?W ?a ?b ?c ?d ?st) =>
      apply (Chat_no_browser_call _ o r (notifyEvents_Chat W a b c d st)) in H;
      discriminate H
  | In (EvCall ?o ?r) ?d =>
      match goal with
      | Hd : Chat d |- _ => apply (Chat_no_browser_call _ o r Hd) in H; discriminate H
      end
  end.

(** Line 171, [e?.message || String(e)]: the message of the error, and
    its name when the message is empty. *)
Lemma orElse_String_of (e : Exn) :
  orElse (message e) (String_of e)
  = if truthy (message e) then message e else name e.
Proof.
  unfold orElse, String_of. destruct (message e); destruct (name e); reflexivity.
Qed.

(** * The claims *)

Lemma unset_envTruthy W name : unset W name <-> envTruthy W name = None.
Proof.
  unfold unset, envTruthy. destruct (env W name) as [[|c v]|]; cbn; split; intros H;
    auto; try discriminate; destruct H; congruence.
Qed.

Lemma loginJudgedOk_spec (url : string) (successHint : nat) :
  loginJudgedOk url successHint = true
  <-> (stillOnLogin url = false \/ (0 < successHint)%nat).
Proof.
  unfold loginJudgedOk. rewrite orb_true_iff, negb_true_iff, Nat.ltb_lt. tauto.
Qed.

(** What a hypothesis [H] about a boolean reading of the trace says, once
    the part of the run that cannot matter is dropped. *)
Ltac reads_bool H :=
  unfold successNotified, downstreamBegun, handlerEntered in H;
  rewrite existsb_Emits in H by (unfold_blocks; emits);
  vm_compute in H.

Ltac in_cases :=
  repeat match goal with
         | H : In _ (_ :: _) |- _ =>
             destruct H as [H|H]; [try discriminate H; try (inversion H; subst)|]
         | H : In _ [] |- _ => destruct H
         | H : False |- _ => destruct H
         end.

(** C1.  Once the form is submitted and the run has read the URL [u] and
    counted [h] logged-in markers, the login counts as successful exactly
    when [u] is off the login path or [h] is positive: the success
    notification is made in that case and in no other, and the server,
    console, restart and command steps begin in that case and in no
    other. *)
Theorem success_is_either_signal (W : World) (u : string) (h : nat) :
  urlRead (events W) = Some u ->
  countReturned successHintLocator (events W) = Some h ->
  (successNotified (events W) = true <-> (stillOnLogin u = false \/ (0 < h)%nat))
  /\ (downstreamBegun (events W) = true <-> (stillOnLogin u = false \/ (0 < h)%nat)).
Proof.
  intros Hu Hh. rewrite <- loginJudgedOk_spec.
  destruct (url_path W u Hu) as (un & pw & idle & _ & _ & E).
  unfold events in *. unfold fromJudgement in E.
  gstep E. gcase W E; [|gdead Hh E].
  assert (v = h) as ->.
  { rewrite E in Hh. extends Hh. vm_compute in Hh. congruence. }
  clear Hh Hu.
  destruct (loginJudgedOk u h) eqn:J.
  - unfold loginSucceeded in E. gstep E. gstep E.
    match type of E with
    | context [match respond W ?x ?o with _ => _ end] => destruct (respond W x o)
    end; tidy E; rewrite E.
    + match goal with |- context [guarded W ?m ?st] =>
        destruct (trace_Emits (guarded W m) st) as (d & ->); [unfold_blocks; emits|]
      end.
      cbn [trace]. read_trace. rewrite ?orb_true_r. tauto.
    + match goal with |- context [abort W ?e ?st] =>
        destruct (abort_spec W e st) as (shot & present & d & cl & out & -> & _ & _)
      end.
      cbn [trace fst]. read_trace. rewrite ?orb_true_r. tauto.
  - rewrite E.
    split; (split; [intros H; reads_bool H; discriminate H | discriminate]).
Qed.

Lemma success_is_either_signal_witness :
  successNotified (events happyWorld) = true
  /\ downstreamBegun (events happyWorld) = true
  /\ successNotified (events rejectedWorld) = false
  /\ downstreamBegun (events rejectedWorld) = false.
Proof.
  destruct (success_is_either_signal happyWorld "https://ctrl.lunes.host/" 0)
    as ((_ & H1) & (_ & H2)); [vm_compute; reflexivity | vm_compute; reflexivity |].
  destruct (success_is_either_signal rejectedWorld LOGIN_URL 0)
    as ((H3 & _) & (H4 & _)); [vm_compute; reflexivity | vm_compute; reflexivity |].
  split; [apply H1; left; vm_compute; reflexivity|].
  split; [apply H2; left; vm_compute; reflexivity|].
  split.
  - destruct (successNotified (events rejectedWorld)); [|reflexivity].
    destruct (H3 eq_refl) as [H|H]; [discriminate H | inversion H].
  - destruct (downstreamBegun (events rejectedWorld)); [|reflexivity].
    destruct (H4 eq_refl) as [H|H]; [discriminate H | inversion H].
Defined.

(** C2, as the code has it.  Take a run that reads a URL off the login
    path (which it only does with both credentials set, no challenge on the
    login page and the three fields found).  When no call of the run throws
    without its rejection being discarded (the wait for network idle at the
    submission may throw: line 98 discards that), the process ends with
    status 0 after writing four screenshot files, in this order:
    [02-before-submit], [03-after-submit], [04-server-page],
    [05-command-executed]; and it makes four notifications: login, server
    page and command each with its screenshot, restart without one.  The
    console step has neither screenshot nor notification.  When a call
    does throw without its rejection being discarded, the status is 1. *)
Theorem happy_run (W : World) (u : string) :
  countReturned humanCheckText (events W) = Some 0%nat ->
  urlRead (events W) = Some u ->
  stillOnLogin u = false ->
  (uncaught (events W) = [] ->
   exitStatus W = 0%Z
   /\ screenshotsWritten (events W)
      = [ screenshot "02-before-submit"; screenshot "03-after-submit";
          screenshot "04-server-page"; screenshot "05-command-executed" ]
   /\ notifications (events W)
      = [ (true, "登录成功"%string, Some (screenshot "03-after-submit"));
          (true, "进入服务器页面"%string, Some (screenshot "04-server-page"));
          (true, "点击 Restart"%string, None);
          (true, "命令执行完成"%string, Some (screenshot "05-command-executed")) ])
  /\ (uncaught (events W) <> [] -> exitStatus W = 1%Z).
Proof.
  intros _ Hu Hs.
  destruct (url_path W u Hu) as (un & pw & idle & Eu & Ep & _).
  destruct (run_course W un pw Eu Ep) as (script & code & Hin & HC).
  split; [|intros HU; exact (course_uncaught_status _ _ _ _ HC HU)].
  intros HU.
  destruct (course_none_uncaught _ _ _ _ HC HU) as (body & E & Hb & Hub & Hst).
  assert (successNotified (events W) = true) as HN.
  { destruct (judged_cases W u Hu) as [(h & _ & H)|(_ & H)].
    - apply H. unfold loginJudgedOk. rewrite Hs. reflexivity.
    - exfalso. rewrite E, handlerEntered_steps, steps_app, Hb in H.
      script_cases Hin; vm_compute in H; discriminate H. }
  destruct (notified_success_script _ _ _ _ _ _ Hin HC HN) as (-> & ->).
  rewrite Hst, E. split; [reflexivity|]. split.
  - unfold screenshotsWritten. rewrite project_app. fold (screenshotsWritten body).
    rewrite (written_when_none_uncaught None body Hub), screenshotCalls_steps, Hb;
      [reflexivity|].
    rewrite handlerEntered_steps, Hb. reflexivity.
  - unfold notifications. rewrite project_app. fold (notifications body).
    rewrite notifications_steps, Hb. reflexivity.
Qed.

Lemma happy_run_witness :
  exitStatus happyWorld = 0%Z
  /\ length (screenshotsWritten (events happyWorld)) = 4%nat
  /\ thrownByBrowser (events busySubmitWorld) <> []
  /\ exitStatus busySubmitWorld = 0%Z
  /\ exitStatus noServerWorld = 1%Z.
Proof.
  destruct (happy_run happyWorld "https://ctrl.lunes.host/") as (H & _);
    [vm_compute; reflexivity ..|].
  destruct H as (H1 & H2 & _); [vm_compute; reflexivity|].
  destruct (happy_run busySubmitWorld "https://ctrl.lunes.host/") as (H & _);
    [vm_compute; reflexivity ..|].
  destruct H as (H3 & _); [vm_compute; reflexivity|].
  destruct (happy_run noServerWorld "https://ctrl.lunes.host/") as (_ & H4);
    [vm_compute; reflexivity ..|].
  split; [exact H1|]. split; [rewrite H2; reflexivity|].
  split; [vm_compute; discriminate|]. split; [exact H3|].
  apply H4. vm_compute. discriminate.
Defined.

(** C2 does not hold as stated.  In the run of the scenario (credentials
    [u] and [p], no challenge, the fields there, a redirect off the login
    path, nothing throws) four screenshot files are written, not five, and
    of the five milestones the console has no notification and the restart
    no screenshot.  And in a run that differs from it only in that the
    link of the server never shows, the status is 1. *)
Lemma scenario_writes_four_screenshots :
  thrownByBrowser (events happyWorld) = []
  /\ exitStatus happyWorld = 0%Z
  /\ length (screenshotsWritten (events happyWorld)) = 4%nat
  /\ notifications (events happyWorld)
     = [ (true, "登录成功"%string, Some (screenshot "03-after-submit"));
         (true, "进入服务器页面"%string, Some (screenshot "04-server-page"));
         (true, "点击 Restart"%string, None);
         (true, "命令执行完成"%string, Some (screenshot "05-command-executed")) ]
  /\ countReturned humanCheckText (events noServerWorld) = Some 0%nat
  /\ urlRead (events noServerWorld) = Some "https://ctrl.lunes.host/"%string
  /\ exitStatus noServerWorld = 1%Z
  /\ ~ stated_C2 happyWorld.
Proof.
  repeat (split; [vm_compute; reflexivity|]).
  intros H.
  destruct (H "u" "p" "https://ctrl.lunes.host/")%string as (_ & H5 & _);
    try (vm_compute; reflexivity).
  vm_compute in H5. discriminate H5.
Qed.

(** C3, as the code has it.  When the challenge marker is found on the
    login page, no input field is ever filled, the screenshot
    [01-human-check] is attempted, and exactly one notification is made, a
    failure.  When the screenshot call returns, the screenshot is written,
    the notification is the challenge one with that screenshot, the [catch]
    block is not entered, and the process ends with status 2 when no
    browser call of the run throws (and with status 1 when a closing call
    throws).  When the screenshot call throws, the [catch] block takes
    over: nothing is written under that name, the one notification is that
    of the exception, with the message of the error thrown, and the status
    is 1. *)
Theorem challenge_blocks (W : World) (n : nat) :
  countReturned humanCheckText (events W) = Some n ->
  (0 < n)%nat ->
  fills (events W) = []
  /\ (exists r, In (EvCall (page_screenshot (screenshot "01-human-check")) r) (events W))
  /\ (notifications (events W)
        = [(false, "打开登录页"%string, Some (screenshot "01-human-check"))]
      \/ exists sp, notifications (events W) = [(false, "异常"%string, sp)])
  /\ (thrownByBrowser (events W) = [] ->
      screenshotsWritten (events W) = [screenshot "01-human-check"]
      /\ In (EvNotify false "打开登录页" "检测到人机验证页面"
               (Some (screenshot "01-human-check"))) (events W)
      /\ notifications (events W)
         = [(false, "打开登录页"%string, Some (screenshot "01-human-check"))]
      /\ exitStatus W = 2%Z)
  /\ (In (EvCall (page_screenshot (screenshot "01-human-check")) (Normal VUnit))
         (events W) ->
      screenshotsWritten (events W) = [screenshot "01-human-check"]
      /\ In (EvNotify false "打开登录页" "检测到人机验证页面"
               (Some (screenshot "01-human-check"))) (events W)
      /\ notifications (events W)
         = [(false, "打开登录页"%string, Some (screenshot "01-human-check"))]
      /\ handlerEntered (events W) = false
      /\ (exitStatus W = 2%Z <-> thrownByBrowser (events W) = [])
      /\ (exitStatus W = 2%Z \/ exitStatus W = 1%Z))
  /\ (forall e,
        In (EvCall (page_screenshot (screenshot "01-human-check")) (Thrown e))
          (events W) ->
        handlerEntered (events W) = true
        /\ ~ In (screenshot "01-human-check") (screenshotsWritten (events W))
        /\ (exists sp,
              In (EvNotify false "异常"
                    (if truthy (message e) then message e else name e) sp) (events W)
              /\ notifications (events W) = [(false, "异常"%string, sp)])
        /\ exitStatus W = 1%Z).
Proof.
  intros Hc Hn.
  destruct (challenge_path W n Hc Hn) as (un & pw & _ & _ & E).
  clear Hc. unfold events, exitStatus. unfold humanCheckExit in E.
  gstep E. gcase W E.
  - gstep E. gstep E. conclude W E. rewrite E. cbn [fst snd trace exitCode].
    split; [destruct Hcl; read_trace; reflexivity|].
    split; [eexists; in_trace|].
    split; [left; destruct Hcl; read_trace; reflexivity|].
    split.
    { intros HT. destruct Hcl; read_trace_in HT; try discriminate HT.
      split; [read_trace; reflexivity|].
      split; [in_trace|].
      split; [read_trace; reflexivity|reflexivity]. }
    split.
    { intros _.
      split; [destruct Hcl; read_trace; reflexivity|].
      split; [in_trace|].
      split; [destruct Hcl; read_trace; reflexivity|].
      split; [destruct Hcl; read_trace; reflexivity|].
      destruct Hcl; read_trace;
        (split; [split; intros H; first [reflexivity | discriminate H]|]); auto. }
    intros e0 H. exfalso. destruct Hcl; find_event H;
      first [discriminate H | not_chat H].
  - conclude W E. rewrite E. cbn [fst snd trace exitCode].
    split; [destruct Hcl; read_trace; reflexivity|].
    split; [eexists; in_trace|].
    split; [right; eexists; destruct Hcl; read_trace; reflexivity|].
    split.
    { intros HT. exfalso. destruct Hcl; read_trace_in HT; discriminate HT. }
    split.
    { intros H. exfalso. unfold handlerEvents in H. destruct Hcl; find_event H;
        first [discriminate H | not_chat H]. }
    intros e0 H.
    assert (e0 = e) as ->.
    { unfold handlerEvents in H. destruct Hcl; find_event H;
        first [injection H as H; congruence | discriminate H | not_chat H]. }
    clear H.
    split; [destruct Hcl; read_trace; rewrite ?orb_true_r; reflexivity|].
    split.
    { destruct Hcl; read_trace; destruct shot; cbn; intuition discriminate. }
    split.
    { eexists. split.
      - rewrite <- orElse_String_of. unfold handlerEvents. in_trace.
      - destruct Hcl; read_trace; reflexivity. }
    destruct Hcl; reflexivity.
Qed.

Lemma challenge_blocks_witness :
  fills (events challengeWorld) = []
  /\ exitStatus challengeWorld = 2%Z
  /\ exitStatus challengeNoShotWorld = 1%Z.
Proof.
  destruct (challenge_blocks challengeWorld 1) as (H1 & _ & _ & H2 & _);
    [vm_compute; reflexivity | repeat constructor |].
  destruct (challenge_blocks challengeNoShotWorld 1) as (_ & _ & _ & _ & _ & H3);
    [vm_compute; reflexivity | repeat constructor |].
  split; [exact H1|]. split; [apply H2; vm_compute; reflexivity|].
  apply (H3 (Error "fault")). vm_compute. tauto.
Defined.

(** C3 does not hold as stated.  The challenge is shown and the run ends
    with status 1, not 2: the screenshot of the challenge page throws, and
    the [catch] block takes over. *)
Lemma challenge_exit_1_when_screenshot_throws :
  countReturned humanCheckText (events challengeNoShotWorld) = Some 1%nat
  /\ screenshotsWritten (events challengeNoShotWorld) = [screenshot "99-error"]
  /\ notifications (events challengeNoShotWorld)
     = [(false, "异常"%string, Some (screenshot "99-error"))]
  /\ exitStatus challengeNoShotWorld = 1%Z
  /\ ~ stated_C3 challengeNoShotWorld.
Proof.
  repeat (split; [vm_compute; reflexivity|]).
  intros H.
  destruct (H 1%nat) as (_ & _ & H2 & _);
    [vm_compute; reflexivity | repeat constructor |].
  vm_compute in H2. discriminate H2.
Qed.

(** C4.  When the run reads a URL that is still on the login path and
    counts no logged-in marker, it counts the error texts on the page, then
    notifies a failure and ends with status 1 without any call of the
    server, console, restart or command steps.  When the count returns, the
    notification is the login-failure one, its message built from the error
    text: the empty string when no error text is counted, what
    [innerText()] returns when one is, and the empty string again when
    [innerText()] throws.  When the count itself throws, the notification is
    that of the [catch] block, and the status is 1 all the same. *)
Theorem login_failure_exits_1 (W : World) (u : string) :
  urlRead (events W) = Some u ->
  countReturned successHintLocator (events W) = Some 0%nat ->
  stillOnLogin u = true ->
  exitStatus W = 1%Z
  /\ downstreamBegun (events W) = false
  /\ ((exists n,
         In (EvCall (locator_count errorMsgNode) (Normal (VNum n))) (events W)
         /\ ((n = 0%nat /\ errorMsgRead (events W) = ""%string)
             \/ ((0 < n)%nat
                 /\ exists r,
                     In (EvCall (locator_innerText (first errorMsgNode)) r) (events W)
                     /\ errorMsgRead (events W)
                        = match r with Normal (VStr t) => t | _ => ""%string end))
         /\ In (EvNotify false "登录失败" (failureMessage (errorMsgRead (events W)))
                  (Some (screenshot "03-after-submit"))) (events W)
         /\ notifications (events W)
            = [(false, "登录失败"%string, Some (screenshot "03-after-submit"))])
      \/ (exists e sp,
            In (EvCall (locator_count errorMsgNode) (Thrown e)) (events W)
            /\ notifications (events W) = [(false, "异常"%string, sp)])).
Proof.
  intros Hu Hh Hs.
  destruct (url_path W u Hu) as (un & pw & idle & _ & _ & E).
  unfold events in *. unfold fromJudgement in E.
  gstep E. gcase W E; [|gdead Hh E].
  assert (v = 0)%nat as ->.
  { rewrite E in Hh. extends Hh. vm_compute in Hh. congruence. }
  clear Hh Hu.
  replace (loginJudgedOk u 0) with false in E
    by (unfold loginJudgedOk; rewrite Hs; reflexivity).
  unfold loginFailed in E.
  gstep E. gcase W E.
  - destruct (0 <? v)%nat eqn:Hv.
    + apply Nat.ltb_lt in Hv.
      gstep E. gcase W E; gstep E; gstep E; conclude W E;
        unfold exitStatus; rewrite E; cbn [fst snd trace exitCode];
        (split; [destruct Hcl; reflexivity|]);
        (split; [destruct Hcl; read_trace; reflexivity|]);
        left; exists v; (split; [in_trace|]);
        (split; [right; split; [exact Hv|]; eexists;
                 split; [in_trace | destruct Hcl; read_trace; reflexivity]|]);
        (split; [destruct Hcl; read_trace; in_trace | destruct Hcl; read_trace; reflexivity]).
    + apply Nat.ltb_ge in Hv. assert (v = 0)%nat as -> by lia.
      gstep E; gstep E; gstep E; conclude W E;
        unfold exitStatus; rewrite E; cbn [fst snd trace exitCode];
        (split; [destruct Hcl; reflexivity|]);
        (split; [destruct Hcl; read_trace; reflexivity|]);
        left; exists 0%nat; (split; [in_trace|]);
        (split; [left; split; [reflexivity | destruct Hcl; read_trace; reflexivity]|]);
        (split; [destruct Hcl; read_trace; in_trace | destruct Hcl; read_trace; reflexivity]).
  - conclude W E.
    unfold exitStatus; rewrite E; cbn [fst snd trace exitCode].
    split; [destruct Hcl; reflexivity|].
    split; [destruct Hcl; read_trace; reflexivity|].
    right. eexists e, _. split; [in_trace|].
    destruct Hcl; read_trace; reflexivity.
Qed.

Lemma login_failure_witness :
  exitStatus rejectedWorld = 1%Z /\ downstreamBegun (events rejectedWorld) = false.
Proof.
  destruct (login_failure_exits_1 rejectedWorld LOGIN_URL) as (H1 & H2 & _);
    [vm_compute; reflexivity | vm_compute; reflexivity | vm_compute; reflexivity |].
  split; assumption.
Defined.

(** C5, as the code has it.  After a login that is judged successful, the
    steps performed before the [catch] or the [finally] block takes over
    are an initial part of the fixed sequence: the server page, the
    console, the restart (its notification right after the click, then the
    pause of 10 s) and the command (typed, sent with Enter, then the pause
    of 5 s, the screenshot and the last notification); no step comes out of
    order and none is left out before a later one.  The whole sequence is
    performed exactly when the [catch] block is not entered, and so when no
    call throws without its rejection being discarded (the wait of line 98
    may throw: the run goes on); then the run is the steps of the login,
    the success notification, the sequence and the two closing calls.  The [catch]
    block is entered exactly when a call other than the two closing calls
    throws without its rejection being discarded; the sequence is then cut
    short at that call, the [catch] block follows it with its error, and
    the status is 1. *)
Theorem downstream_in_order (W : World) (u : string) (h : nat) :
  urlRead (events W) = Some u ->
  countReturned successHintLocator (events W) = Some h ->
  stillOnLogin u = false \/ (0 < h)%nat ->
  (exists later, downstreamSteps = downstreamPerformed (events W) ++ later)
  /\ (handlerEntered (events W) = false <->
      downstreamPerformed (events W) = downstreamSteps)
  /\ (uncaught (events W) = [] ->
      downstreamPerformed (events W) = downstreamSteps
      /\ exists username password,
          envTruthy W "LUNES_USERNAME" = Some username
          /\ envTruthy W "LUNES_PASSWORD" = Some password
          /\ steps (events W)
             = loginSteps username password
                 ++ [Notified true "登录成功" (Some (screenshot "03-after-submit"))]
                 ++ downstreamSteps
                 ++ [Called context_close; Called browser_close])
  /\ (handlerEntered (events W) = true <->
      exists o e,
        In (o, e) (uncaught (events W)) /\ o <> context_close /\ o <> browser_close)
  /\ (handlerEntered (events W) = true ->
      exists pre o e shot present d cl out later,
        events W = pre ++ [EvCall o (Thrown e)] ++ handlerEvents e shot present ++ d ++ cl
        /\ isBrowserOp o = true
        /\ uncaught pre = []
        /\ discarded (lastCall pre) o = false
        /\ Chat d
        /\ Closed (Normal tt) cl out
        /\ later <> []
        /\ downstreamSteps = downstreamPerformed (events W) ++ later
        /\ exitStatus W = 1%Z).
Proof.
  intros Hu Hh J. apply loginJudgedOk_spec in J.
  destruct (downstream_prefix W u h Hu Hh J) as (later0 & Hp).
  split; [exists later0; exact Hp|].
  destruct (url_path W u Hu) as (un & pw & idle & Eu & Ep & _).
  destruct (run_course W un pw Eu Ep) as (script & code & Hin & HC).
  assert (successNotified (events W) = true) as HN.
  { destruct (judged_cases W u Hu) as [(h' & Hh' & H)|(Hh' & _)]; [|congruence].
    assert (h' = h) as -> by congruence. exact (H J). }
  destruct (notified_success_script _ _ _ _ _ _ Hin HC HN) as (-> & ->).
  clear Hu Hh J.
  remember (events W) as tr eqn:Etr. remember (exitStatus W) as status eqn:Est.
  clear Etr Est.
  destruct HC as [k o e Hk|body cl out Hb Hub Hcl
                 |pre o e later shot present d cl out Ho Hup Hx Hs Hl Hq Hd Hcl].
  - exfalso. destruct k as [|[|[|k]]]; cbn in Hk; try (destruct k; discriminate Hk);
      injection Hk as <-; discriminate HN.
  - assert (handlerEntered (body ++ cl) = false) as Hhe.
    { rewrite handlerEntered_steps, steps_app, Hb. destruct Hcl; reflexivity. }
    assert (downstreamPerformed (body ++ cl) = downstreamSteps) as Hall.
    { unfold downstreamPerformed. rewrite steps_app, Hb. destruct Hcl; reflexivity. }
    split; [split; intros _; [exact Hall | exact Hhe]|].
    split.
    { intros HU. split; [exact Hall|]. exists un, pw.
      split; [exact Eu|]. split; [exact Ep|].
      unfold uncaught in HU. rewrite uncaughtFrom_app in HU.
      apply app_eq_nil in HU. destruct HU as [_ HU].
      rewrite steps_app, Hb. destruct Hcl; try discriminate HU. reflexivity. }
    split; [|intros H; rewrite Hhe in H; discriminate H].
    split; [intros H; rewrite Hhe in H; discriminate H|].
    intros (o & e & Ho & Hn1 & Hn2). exfalso.
    unfold uncaught in Ho, Hub. rewrite uncaughtFrom_app, Hub in Ho.
    destruct Hcl; cbn in Ho; intuition congruence.
  - assert (handlerEntered
              (pre ++ [EvCall o (Thrown e)] ++ handlerEvents e shot present ++ d ++ cl)
            = true) as Hhe.
    { unfold handlerEntered. rewrite !existsb_app. cbn. rewrite !orb_true_r. reflexivity. }
    assert (In (o, e)
              (uncaught (pre ++ [EvCall o (Thrown e)]
                           ++ handlerEvents e shot present ++ d ++ cl))) as Hin'.
    { unfold uncaught. rewrite uncaughtFrom_app. apply in_or_app. right.
      cbn [app uncaughtFrom]. rewrite Ho. fold (lastCall pre). rewrite Hx.
      left. reflexivity. }
    assert (In (Called o) (successScript un pw)) as Hos.
    { rewrite Hs, steps_app. apply in_or_app. left. apply in_or_app. right.
      unfold steps, project. cbn. rewrite Ho. left. reflexivity. }
    assert (later0 <> []) as Hl0.
    { intros ->. rewrite app_nil_r in Hp.
      assert (In (Notified true "命令执行完成" (Some (screenshot "05-command-executed")))
                (steps (pre ++ [EvCall o (Thrown e)]
                          ++ handlerEvents e shot present ++ d ++ cl))) as Hlast.
      { eapply In_skipn, In_takeWhile. unfold downstreamPerformed in Hp.
        rewrite <- Hp. unfold downstreamSteps. in_trace. }
      destruct (cut_short_notes _ _ _ _ _ _ Hin Hs Hl) as (k & Hk & Hn).
      rewrite app_assoc, steps_app in Hlast.
      apply in_app_or in Hlast. destruct Hlast as [Hlast|Hlast].
      + assert (In (true, "命令执行完成"%string, Some (screenshot "05-command-executed"))
                  (notesOf (steps (pre ++ [EvCall o (Thrown e)])))) as Hnote.
        { unfold notesOf. apply in_flat_map. eexists. split; [exact Hlast|].
          left. reflexivity. }
        rewrite Hn in Hnote.
        destruct k as [|[|[|[|k]]]]; cbn in Hk, Hnote; [intuition discriminate ..|lia].
      + rewrite !steps_app, (steps_Chat d Hd) in Hlast.
        destruct Hcl; find_event Hlast; cbn in Hlast; intuition discriminate. }
    split.
    { split; intros H; [rewrite Hhe in H; discriminate H|].
      exfalso. apply Hl0. rewrite H in Hp.
      rewrite <- (app_nil_r downstreamSteps) in Hp at 1.
      apply app_inv_head in Hp. auto. }
    split.
    { intros HU. exfalso. rewrite HU in Hin'. destruct Hin'. }
    split.
    { split; [|intros _; exact Hhe]. intros _. exists o, e.
      split; [exact Hin'|].
      split; intros ->; cbn in Hos; intuition discriminate. }
    intros _. exists pre, o, e, shot, present, d, cl, out, later0.
    repeat (split; [first [assumption | reflexivity]|]).
    reflexivity.
Qed.

Lemma downstream_in_order_witness :
  downstreamPerformed (events happyWorld) = downstreamSteps
  /\ downstreamPerformed (events busySubmitWorld) = downstreamSteps
  /\ exists later,
      downstreamSteps = downstreamPerformed (events noServerWorld) ++ later.
Proof.
  destruct (downstream_in_order happyWorld "https://ctrl.lunes.host/" 0)
    as (_ & _ & H & _);
    [vm_compute; reflexivity | vm_compute; reflexivity | left; vm_compute; reflexivity |].
  destruct H as (H & _); [vm_compute; reflexivity|].
  destruct (downstream_in_order busySubmitWorld "https://ctrl.lunes.host/" 0)
    as (_ & H2 & _);
    [vm_compute; reflexivity | vm_compute; reflexivity | left; vm_compute; reflexivity |].
  destruct (downstream_in_order noServerWorld "https://ctrl.lunes.host/" 0)
    as (H' & _);
    [vm_compute; reflexivity | vm_compute; reflexivity | left; vm_compute; reflexivity |].
  split; [exact H|]. split; [apply H2; vm_compute; reflexivity | exact H'].
Defined.

(** C5 does not hold as stated.  The login is judged successful and the
    steps of the console, the restart and the command are not performed:
    waiting for the link of the server throws, and the [catch] block takes
    over. *)
Lemma downstream_cut_short_by_a_throw :
  urlRead (events noServerWorld) = Some "https://ctrl.lunes.host/"%string
  /\ stillOnLogin "https://ctrl.lunes.host/" = false
  /\ successNotified (events noServerWorld) = true
  /\ downstreamCalls (events noServerWorld) = [locator_waitFor serverLink 20000]
  /\ downstreamPerformed (events noServerWorld)
     = [Called (locator_waitFor serverLink 20000)]
  /\ exitStatus noServerWorld = 1%Z
  /\ ~ stated_C5 noServerWorld.
Proof.
  repeat (split; [vm_compute; reflexivity|]).
  intros H.
  specialize (H "https://ctrl.lunes.host/"%string 0%nat).
  vm_compute in H.
  specialize (H eq_refl eq_refl (or_introl eq_refl)). discriminate H.
Qed.

(** C6 does not hold of the code.  The browser is launched and neither
    it nor a context is ever closed when making the context throws: lines
    62-64 come before the [try], so the [finally] block of lines 173-176 is
    not reached, and the run ends with status 1.  And in a run in which
    everything else works, the browser is not closed when closing the
    context throws: line 175 is not reached. *)
Lemma launched_never_closed :
  In (EvCall chromium_launch (Normal VUnit)) (events noContextWorld)
  /\ contextCloses (events noContextWorld) = []
  /\ browserCloses (events noContextWorld) = []
  /\ contextCloses (events closeThrowsWorld) = [Thrown (Error "fault")]
  /\ browserCloses (events closeThrowsWorld) = []
  /\ ~ stated_C6 noContextWorld
  /\ events noContextWorld
     = [ EvCall chromium_launch (Normal VUnit);
         EvCall browser_newContext (Thrown (Error "fault")) ]
  /\ exitStatus noContextWorld = 1%Z
  /\ In (EvCall chromium_launch (Normal VUnit)) (events closeThrowsWorld)
  /\ ~ stated_C6 closeThrowsWorld.
Proof.
  split; [vm_compute; left; reflexivity|].
  repeat (split; [vm_compute; reflexivity|]).
  split.
  { intros H. destruct H as (H & _); [vm_compute; left; reflexivity|].
    vm_compute in H. discriminate H. }
  repeat (split; [vm_compute; reflexivity|]).
  split; [vm_compute; left; reflexivity|].
  intros H. destruct H as (_ & H); [vm_compute; left; reflexivity|].
  vm_compute in H. discriminate H.
Qed.

(** C7.  When [LUNES_USERNAME] or [LUNES_PASSWORD] is missing or empty,
    [main] throws before it does anything: the trace of the run is empty, so
    no browser was launched, no page was opened and the Notifier was not
    called; the process ends with the status of an uncaught error. *)
Theorem missing_credential_aborts (W : World) :
  unset W "LUNES_USERNAME" \/ unset W "LUNES_PASSWORD" ->
  events W = []
  /\ browserCalls (events W) = []
  /\ notifications (events W) = []
  /\ fetches (events W) = []
  /\ (exists name, snd (run W) = Thrown (Error ("环境变量 " ++ name ++ " 未设置"))%string)
  /\ exitStatus W = 1%Z.
Proof.
  intros H. unfold events, exitStatus.
  destruct (run_cases W)
    as [(name & _ & _ & E)|(u & p & Eu & Ep & _)].
  - rewrite E. cbn. repeat split. exists name. reflexivity.
  - exfalso. destruct H as [H|H]; apply unset_envTruthy in H; congruence.
Qed.

Lemma missing_credential_witness :
  events bareWorld = [] /\ exitStatus bareWorld = 1%Z.
Proof.
  destruct (missing_credential_aborts bareWorld) as (H1 & _ & _ & _ & _ & H2).
  - left. left. reflexivity.
  - split; assumption.
Defined.

(** C8.  A call of the Notifier returns normally and leaves
    [process.exitCode] as it found it, whatever the chat service and the
    file system answer; every exception thrown inside it (a rejected
    [fetch], a screenshot file that cannot be read) ends in its own [catch],
    which writes the warning line. *)
Theorem notifier_never_throws (W : World) (ok : bool) (stage msg : string)
    (sp : option string) (st : St) :
  snd (notifyTelegram W ok stage msg sp st) = Normal tt
  /\ exitCode (fst (notifyTelegram W ok stage msg sp st)) = exitCode st
  /\ (forall e, In e (thrownBy (notifyEvents W ok stage msg sp st)) ->
        logLines (notifyEvents W ok stage msg sp st) = [warnFailed e]).
Proof.
  rewrite notifyTelegram_eq. cbn [fst snd exitCode].
  repeat split.
  pose proof (notifyEvents_Delivery W ok stage msg sp st) as HD.
  remember (notifyEvents W ok stage msg sp st) as d eqn:Ed. clear Ed.
  intros e0 He0.
  destruct HD; cbn [thrownBy project flat_map app] in He0; in_cases; reflexivity.
Qed.

Lemma envTruthy_Some W name v :
  env W name = Some v -> v <> ""%string -> envTruthy W name = Some v.
Proof.
  intros H Hv. unfold envTruthy. rewrite H. destruct v; [contradiction|reflexivity].
Qed.

Lemma pathGiven_Some sp p : pathGiven sp = Some p <-> sp = Some p /\ p <> ""%string.
Proof.
  unfold pathGiven. destruct sp as [[|c q]|]; cbn; split.
  - discriminate.
  - intros [H H']. injection H as <-. contradiction.
  - intros H. injection H as <-. split; [reflexivity | discriminate].
  - intros [H _]. exact H.
  - discriminate.
  - intros [H _]. discriminate H.
Qed.

(** C9.  With the token or the channel id unset (or empty) the Notifier
    writes the warning line and calls nothing.  Otherwise its first call
    sends the text message, whatever else happens.  When a screenshot path
    was given and the text was sent, the file is looked for; when it is
    found it is read; when it is read it is sent, by a second, separate
    call, with the caption of the stage.  No image is sent otherwise: not
    without a path, and not when the file is not there, in which case the
    image step is left out without a log line. *)
Theorem notifier_delivery (W : World) (ok : bool) (stage msg : string)
    (sp : option string) (st : St) :
  let d := notifyEvents W ok stage msg sp st in
  ((unset W "TELEGRAM_BOT_TOKEN" \/ unset W "TELEGRAM_CHAT_ID") ->
     d = [EvLog warnUnset] /\ fetches d = [])
  /\ (forall token chatId,
        env W "TELEGRAM_BOT_TOKEN" = Some token -> token <> ""%string ->
        env W "TELEGRAM_CHAT_ID" = Some chatId -> chatId <> ""%string ->
        exists now,
          let text := sendMessage token chatId (notifyText ok stage msg now) true in
          (exists r rest,
              d = EvObs Date_toISOString (VStr now) :: EvCall (fetch text) r :: rest)
          /\ (fetches d = [text]
              \/ exists p photo,
                  sp = Some p /\ p <> ""%string
                  /\ In (EvObs (fs_existsSync p) (VBool true)) d
                  /\ fetches d = [text; sendPhoto token chatId (caption stage) photo])
          /\ (forall p,
                sp = Some p -> p <> ""%string ->
                In (EvCall (fetch text) (Normal VUnit)) d ->
                exists present, In (EvObs (fs_existsSync p) (VBool present)) d)
          /\ (forall p,
                In (EvObs (fs_existsSync p) (VBool true)) d ->
                exists r, In (EvCall (fs_readFileSync p) r) d)
          /\ (forall p photo,
                In (EvCall (fs_readFileSync p) (Normal (VBytes photo))) d ->
                (exists r,
                    In (EvCall (fetch (sendPhoto token chatId (caption stage) photo)) r) d)
                /\ fetches d = [text; sendPhoto token chatId (caption stage) photo])
          /\ (forall p,
                In (EvObs (fs_existsSync p) (VBool false)) d ->
                fetches d = [text] /\ logLines d = [])
          /\ (sp = None \/ sp = Some ""%string -> fetches d = [text])).
Proof.
  intros d.
  pose proof (notifyEvents_Delivery W ok stage msg sp st) as HD.
  fold d in HD. clearbody d.
  assert (forall token chatId,
             env W "TELEGRAM_BOT_TOKEN" = Some token -> token <> ""%string ->
             env W "TELEGRAM_CHAT_ID" = Some chatId -> chatId <> ""%string ->
             envTruthy W "TELEGRAM_BOT_TOKEN" = Some token
             /\ envTruthy W "TELEGRAM_CHAT_ID" = Some chatId) as Henv.
  { intros t c Ht Hnt Hc Hnc. split; apply envTruthy_Some; assumption. }
  assert (unset W "TELEGRAM_BOT_TOKEN" \/ unset W "TELEGRAM_CHAT_ID" ->
          envTruthy W "TELEGRAM_BOT_TOKEN" = None \/ envTruthy W "TELEGRAM_CHAT_ID" = None)
    as Hun.
  { intros [H|H]; apply unset_envTruthy in H; auto. }
  destruct HD as [[H|H]|token chatId now e Ht Hc|token chatId now Ht Hc Hp
                 |token chatId now p Ht Hc Hp|token chatId now p e Ht Hc Hp
                 |token chatId now p photo Ht Hc Hp|token chatId now p photo e Ht Hc Hp].
  1,2: split; [intros _; split; reflexivity
              |intros t c Ht Hnt Hc Hnc; destruct (Henv t c Ht Hnt Hc Hnc); congruence].
  all: split; [intros H; destruct (Hun H); congruence|].
  all: intros t c Ht' Hnt Hc' Hnc; destruct (Henv t c Ht' Hnt Hc' Hnc) as [Ht2 Hc2];
    assert (t = token) by congruence;
    assert (c = chatId) by congruence; subst t c; clear Henv Hun Ht2 Hc2;
    exists now; cbn zeta.
  all: try (apply pathGiven_Some in Hp; destruct Hp as [Hp Hpn]).
  all: split; [do 2 eexists; reflexivity|].
  all: split; [first [left; reflexivity
                     |right; exists p, photo;
                      split; [exact Hp|]; split; [exact Hpn|];
                      split; [simpl; tauto | reflexivity]]|].
  all: split; [intros q Hq Hqn Hin|].
  all: try (split; [intros q Hin|]).
  all: try (split; [intros q ph Hin|]).
  all: try (split; [intros q Hin|intros Hs]).
  all: in_cases.
  all: try (split; reflexivity); try reflexivity.
  all: try (assert (q = p) as -> by congruence).
  all: try solve [eexists; simpl; tauto].
  all: try solve [split; [eexists; simpl; tauto | reflexivity]].
  all: try solve [exfalso; destruct Hs as [Hs|Hs]; congruence].
  all: try solve [exfalso; assert (pathGiven sp = Some q)
                    by (apply pathGiven_Some; auto); congruence].
  all: exfalso; assert (pathGiven (Some q) = Some q)
         by (apply pathGiven_Some; auto); congruence.
Qed.

(** C10.  An image is sent only after a text message that was sent without
    throwing: every [sendPhoto] call of a Notifier invocation comes after a
    [sendMessage] call that returned; and when the [sendMessage] call
    throws, it is the only call made. *)
Theorem image_only_after_text (W : World) (ok : bool) (stage msg : string)
    (sp : option string) (st : St) :
  let d := notifyEvents W ok stage msg sp st in
  (forall token chatId cap photo r,
      In (EvCall (fetch (sendPhoto token chatId cap photo)) r) d ->
      exists pre text post,
        d = pre ++ EvCall (fetch (sendMessage token chatId text true)) (Normal VUnit) :: post
        /\ In (EvCall (fetch (sendPhoto token chatId cap photo)) r) post)
  /\ (forall token chatId text flag e,
        In (EvCall (fetch (sendMessage token chatId text flag)) (Thrown e)) d ->
        fetches d = [sendMessage token chatId text flag]).
Proof.
  intros d.
  pose proof (notifyEvents_Delivery W ok stage msg sp st) as HD.
  fold d in HD. clearbody d.
  destruct HD as [[H|H]|token chatId now e Ht Hc|token chatId now Ht Hc Hp
                 |token chatId now p Ht Hc Hp|token chatId now p e Ht Hc Hp
                 |token chatId now p photo Ht Hc Hp|token chatId now p photo e Ht Hc Hp].
  all: split; [intros t c cap ph r Hin | intros t c text flag e' Hin]; in_cases.
  all: try reflexivity.
  all: eexists [_], _, _; split; [reflexivity|]; simpl; tauto.
Qed.

(** * Further properties *)

(** The answers of the chat service, of the clock and of the file system,
    and whether the chat credentials are set, change neither what the
    Session Runner does in the browser nor the status the process ends
    with. *)
Theorem chat_cannot_change_exit_status (W1 W2 : World) :
  SameBrowser W1 W2 ->
  runnerView (events W1) = runnerView (events W2)
  /\ exitStatus W1 = exitStatus W2.
Proof.
  intros H. unfold events, exitStatus, run.
  destruct (Sim_main W1 W2 H init init eq_refl eq_refl) as (V & X & R).
  destruct (main W1 init) as [s1 r1], (main W2 init) as [s2 r2].
  cbn [fst snd] in *. subst r2. rewrite X. auto.
Qed.

Lemma chat_cannot_change_exit_status_witness :
  exitStatus chatDownWorld = exitStatus happyWorld.
Proof.
  apply (chat_cannot_change_exit_status chatDownWorld happyWorld).
  repeat split.
  - intros h1 h2 o Ho _. destruct o; try discriminate Ho; reflexivity.
Defined.

(** The process ends with status 0, 1 or 2, whatever happens. *)
Theorem exit_status_is_0_1_or_2 (W : World) :
  exitStatus W = 0%Z \/ exitStatus W = 1%Z \/ exitStatus W = 2%Z.
Proof.
  assert (Keeps knownCode (main W)) as K.
  { unfold main, workflow, handler, teardown, swallow, humanCheckExit,
      loginSucceeded, loginFailed. keeps. }
  specialize (K init (or_introl eq_refl)).
  unfold exitStatus, run. destruct (main W init) as [st [[]|e]]; cbn [fst] in K; [|auto].
  destruct K as [K|[K|[K|K]]]; rewrite K; auto.
Qed.

Section ExceptionPath.

Variable W : World.

(** Whenever the [catch] block is entered, it is because the body of the
    [try] threw some [e]; what follows is the attempt at the screenshot
    [99-error], whose failure is discarded, the look for that file, the
    failure notification with the message of [e] (and the screenshot when
    the file is there), then the [finally] block; [process.exitCode] is 1
    and so is the status of the process. *)
Theorem exception_path :
  handlerEntered (events W) = true ->
  exists username password st e shot present d cl out,
    workflow W username password {| trace := setupEvents; exitCode := None |}
    = (st, Thrown e)
    /\ run W = ({| trace := trace st ++ handlerEvents e shot present ++ d ++ cl;
                   exitCode := Some 1%Z |}, out)
    /\ Chat d
    /\ Closed (Normal tt) cl out
    /\ exitStatus W = 1%Z.
Proof.
  unfold events, exitStatus. intros H.
  destruct (run_cases W)
    as [(name & _ & _ & E)|(un & pw & _ & _ & [(e & E)|[(e & E)|[(e & E)|E]]])];
    try (rewrite E in H; vm_compute in H; discriminate H).
  rewrite guarded_cases in E.
  destruct (workflow W un pw {| trace := setupEvents; exitCode := None |})
    as [st [[]|e]] eqn:Ew.
  - exfalso. rewrite E in H.
    destruct (finish_spec W st) as (cl & out & E' & Hcl). rewrite E' in H.
    cbn [fst trace] in H. unfold handlerEntered in H. rewrite existsb_app in H.
    assert (existsb (fun ev => match ev with
                               | EvCall (page_screenshot p) _ =>
                                   String.eqb p (screenshot "99-error")
                               | _ => false
                               end) (trace st) = false) as Hw.
    { change st with (fst (st, @Normal unit tt)). rewrite <- Ew.
      rewrite existsb_Emits; [reflexivity|].
      unfold workflow. unfold_blocks. emits. }
    rewrite Hw in H. destruct Hcl; discriminate H.
  - destruct (abort_spec W e st) as (shot & present & d & cl & out & E' & Hd & Hcl).
    rewrite E' in E. exists un, pw, st, e, shot, present, d, cl, out.
    rewrite E. repeat split; try assumption.
    destruct Hcl; reflexivity.
Qed.

End ExceptionPath.

Lemma exception_path_witness : exitStatus noServerWorld = 1%Z.
Proof.
  destruct (exception_path noServerWorld) as (un & pw & st & e & shot & present & d & cl
                                              & out & _ & _ & _ & _ & H);
    [vm_compute; reflexivity | exact H].
Defined.

(** Every run with both credentials follows one of the four scripts: it
    performs the script to its end and closes; or a call inside the [try]
    throws, the script is cut short there, and the [catch] block reports
    the error of that call before the [finally] block closes; or the
    browser, its context or the page cannot be had and nothing else is
    done.  The status of the process is the code of the script when it is
    performed to its end and both closing calls return, and 1 otherwise. *)
Theorem every_run_follows_a_script (W : World) (username password : string) :
  envTruthy W "LUNES_USERNAME" = Some username ->
  envTruthy W "LUNES_PASSWORD" = Some password ->
  exists script code,
    In (script, code) (scripts username password)
    /\ Outline script code (events W) (exitStatus W).
Proof. apply run_outline. Qed.

(** The texts typed into the page are the user name into the user name
    field, the password into the password field and the fixed command into
    the command field, in this order, each at most once: in every run the
    texts typed are an initial part of these three. *)
Theorem only_credentials_and_command_typed (W : World) (username password : string) :
  envTruthy W "LUNES_USERNAME" = Some username ->
  envTruthy W "LUNES_PASSWORD" = Some password ->
  exists later,
    [ (userInput, username); (passInput, password);
      (commandInput, "working properly"%string) ]
    = fills (events W) ++ later.
Proof.
  intros Eu Ep.
  destruct (run_outline W username password Eu Ep) as (script & code & Hin & HO).
  rewrite fills_steps.
  destruct (outline_steps _ _ _ _ HO)
    as [(k & Hk & ->)|[(closing & -> & Hc)|(done & later & sp & closing & Hs & Hl & -> & Hsp & Hc)]].
  - destruct k as [|[|[|k]]]; [eexists; reflexivity ..|lia].
  - script_cases Hin; closing_cases Hc; eexists; reflexivity.
  - assert (fillsOf (done ++ catchSteps sp ++ closing) = fillsOf done) as ->.
    { unfold fillsOf. rewrite !flat_map_app.
      closing_cases Hc; cbn; apply app_nil_r. }
    assert (fillsOf script = fillsOf done ++ fillsOf later) as Hf
      by (rewrite Hs; apply flat_map_app).
    script_cases Hin;
      match type of Hf with ?x = _ =>
        let y := eval vm_compute in x in change x with y in Hf
      end;
      [exists (fillsOf later
                 ++ [ (userInput, username); (passInput, password);
                      (commandInput, "working properly"%string) ])
      |exists (fillsOf later)
      |exists (fillsOf later ++ [(commandInput, "working properly"%string)])
      |exists (fillsOf later ++ [(commandInput, "working properly"%string)])];
      rewrite ?app_assoc, <- Hf; reflexivity.
Qed.

Lemma only_credentials_and_command_typed_witness :
  fills (events happyWorld)
  = [ (userInput, "u"%string); (passInput, "p"%string);
      (commandInput, "working properly"%string) ].
Proof.
  destruct (only_credentials_and_command_typed happyWorld "u" "p") as (later & H);
    [reflexivity | reflexivity |].
  assert (later = []) as ->.
  { apply (f_equal (@length _)) in H. rewrite length_app in H.
    vm_compute in H. destruct later; [reflexivity | discriminate H]. }
  rewrite app_nil_r in H. symmetry. exact H.
Defined.

(** The notifications of a run tell one outcome.  Either nothing is
    notified, and then the page was never created; or the four success
    notifications are made; or the challenge alone is notified; or the
    login failure alone; or the [catch] block notifies the exception, after
    fewer than four of the success notifications.  So a failure is notified
    at most once, nothing is notified after it, and a run that got its page
    always ends with a notification of how it went. *)
Theorem notifications_tell_one_outcome (W : World) :
  (notifications (events W) = []
   /\ ~ In (EvCall context_newPage (Normal VUnit)) (events W))
  \/ notifications (events W) = successNotes
  \/ notifications (events W)
     = [(false, "打开登录页"%string, Some (screenshot "01-human-check"))]
  \/ notifications (events W)
     = [(false, "登录失败"%string, Some (screenshot "03-after-submit"))]
  \/ exists k sp,
       (k < 4)%nat
       /\ (sp = None \/ sp = Some (screenshot "99-error"))
       /\ notifications (events W) = firstn k successNotes ++ [(false, "异常"%string, sp)].
Proof.
  destruct (run_cases W) as [(name & _ & _ & E)|(un & pw & Eu & Ep & _)].
  { left. unfold events. rewrite E. split; [reflexivity | intros []]. }
  destruct (run_outline W un pw Eu Ep) as (script & code & Hin & HO).
  remember (events W) as tr eqn:Etr. remember (exitStatus W) as status eqn:Est.
  clear Etr Est.
  destruct HO as [k o e Hk|body cl out Hb Hcl
                 |pre o e later shot present d cl out Ho Hs Hl Hp Hd Hcl].
  - left. destruct k as [|[|[|k]]]; cbn in Hk; try (destruct k; discriminate Hk);
      injection Hk as <-;
      (split; [reflexivity | cbn; intuition discriminate]).
  - right. unfold notifications. rewrite project_app.
    fold notifications. rewrite notifications_steps, Hb.
    assert (notifications cl = []) as -> by (destruct Hcl; reflexivity).
    rewrite app_nil_r.
    script_cases Hin; [right; left | left | right; right; left ..]; reflexivity.
  - right. right. right. right.
    destruct (cut_short_notes _ _ _ _ _ _ Hin Hs Hl) as (k & Hk & Hn).
    rewrite app_assoc.
    remember (pre ++ [EvCall o (Thrown e)]) as body eqn:Hbody. clear Hbody.
    unfold notifications. rewrite !project_app.
    fold notifications. rewrite (notifications_steps body), Hn.
    assert (notifications cl = []) as -> by (destruct Hcl; reflexivity).
    assert (notifications d = []) as ->
      by (apply project_chat; [exact Hd|chat_side]).
    exists (if (k <? 4)%nat then k else 0%nat),
      (if present then Some (screenshot "99-error") else None).
    split; [destruct (k <? 4)%nat eqn:H4; [apply Nat.ltb_lt in H4; exact H4 | lia]|].
    split; [destruct present; auto|].
    cbn [app]. f_equal.
    script_cases Hin;
      match type of Hk with context [notesOf ?s] =>
        let y := eval vm_compute in (notesOf s) in
        change (notesOf s) with y in Hk |- *
      end; cbn [length] in Hk.
    + assert (k = 0)%nat as -> by lia. reflexivity.
    + apply Nat.ltb_lt in Hk. rewrite Hk. reflexivity.
    + assert (k = 0)%nat as -> by lia. reflexivity.
    + assert (k = 0)%nat as -> by lia. reflexivity.
Qed.

(** The status of the process tells the path taken.  It is 0 only when
    the whole script of a successful login was performed and both closing
    calls returned; it is 2 only when the whole script of the challenge was
    performed and both closing calls returned. *)
Theorem exit_status_tells_the_path (W : World) :
  (exitStatus W = 0%Z ->
   exists username password body,
     envTruthy W "LUNES_USERNAME" = Some username
     /\ envTruthy W "LUNES_PASSWORD" = Some password
     /\ events W = body ++ [ EvCall context_close (Normal VUnit);
                             EvCall browser_close (Normal VUnit) ]
     /\ steps body = successScript username password)
  /\ (exitStatus W = 2%Z ->
      exists body,
        events W = body ++ [ EvCall context_close (Normal VUnit);
                             EvCall browser_close (Normal VUnit) ]
        /\ steps body = challengeScript).
Proof.
  destruct (run_cases W) as [(name & _ & _ & E)|(un & pw & Eu & Ep & _)].
  { unfold exitStatus. rewrite E. split; discriminate. }
  destruct (run_outline W un pw Eu Ep) as (script & code & Hin & HO).
  remember (events W) as tr eqn:Etr. remember (exitStatus W) as status eqn:Est.
  clear Etr Est.
  destruct HO as [k o e Hk|body cl out Hb Hcl
                 |pre o e later shot present d cl out Ho Hs Hl Hp Hd Hcl];
    [split; discriminate | | split; discriminate].
  destruct Hcl; [|split; discriminate ..].
  script_cases Hin; (split; [intros H|intros H]); try discriminate H.
  - exists body. auto.
  - exists un, pw, body. auto.
Qed.

(** When the [catch] block is entered, the error it caught is the one
    thrown by the browser call made just before, a call whose rejection the
    script does not discard: the failure notification carries the message
    of that error, and the name of the error when its message is empty. *)
Theorem catch_reports_the_failed_call (W : World) :
  handlerEntered (events W) = true ->
  exists pre o e shot present d cl out,
    isBrowserOp o = true
    /\ discarded (lastCall pre) o = false
    /\ events W = pre ++ [EvCall o (Thrown e)] ++ handlerEvents e shot present ++ d ++ cl
    /\ Chat d
    /\ Closed (Normal tt) cl out
    /\ In (EvNotify false "异常" (if truthy (message e) then message e else name e)
             (if present then Some (screenshot "99-error") else None))
          (events W).
Proof.
  intros H.
  destruct (run_cases W) as [(nm & _ & _ & E)|(un & pw & Eu & Ep & _)].
  { unfold events in H. rewrite E in H. discriminate H. }
  destruct (run_course W un pw Eu Ep) as (script & code & Hin & HC).
  destruct (course_handlerEntered _ _ _ _ _ _ Hin HC H)
    as (pre & o & e & later & shot & present & d & cl & out
        & E & Ho & Hu & Hx & Hs & Hl & Hd & Hcl & _).
  exists pre, o, e, shot, present, d, cl, out.
  repeat (split; [assumption|]).
  rewrite E, <- orElse_String_of. unfold handlerEvents.
  apply in_or_app. right. apply in_or_app. right. apply in_or_app. left.
  right. right. left. reflexivity.
Qed.

Lemma catch_reports_the_failed_call_witness :
  exists o e, In (EvCall o (Thrown e)) (events noServerWorld).
Proof.
  destruct (catch_reports_the_failed_call noServerWorld)
    as (pre & o & e & shot & present & d & cl & out & Ho & _ & E & _);
    [vm_compute; reflexivity|].
  exists o, e. rewrite E. apply in_or_app. right. left. reflexivity.
Defined.

Lemma shots_NoDup (l : list string) k tail :
  l = firstn k [screenshot "01-human-check"] ++ tail
  \/ l = firstn k workflowShots ++ tail ->
  tail = [] \/ tail = [screenshot "99-error"] ->
  NoDup l.
Proof.
  intros [->| ->] [->| ->]; destruct k as [|[|[|[|k]]]];
    cbn [firstn workflowShots app]; rewrite ?firstn_nil; cbn [app];
    repeat (constructor; [cbn; intuition discriminate|]); constructor.
Qed.

(** The screenshots are asked for in the order of their numbers and none
    twice: the one of the challenge, or an initial part of those of the
    login and of the server, then at most the one of the [catch] block.
    So no screenshot file is written twice in a run. *)
Theorem screenshots_in_order (W : World) :
  exists k tail,
    (screenshotCalls (events W) = firstn k [screenshot "01-human-check"] ++ tail
     \/ screenshotCalls (events W) = firstn k workflowShots ++ tail)
    /\ (tail = [] \/ tail = [screenshot "99-error"])
    /\ NoDup (screenshotCalls (events W)).
Proof.
  assert (exists k tail,
             (screenshotCalls (events W) = firstn k [screenshot "01-human-check"] ++ tail
              \/ screenshotCalls (events W) = firstn k workflowShots ++ tail)
             /\ (tail = [] \/ tail = [screenshot "99-error"])) as (k & tail & H1 & H2).
  2: { exists k, tail. split; [exact H1|]. split; [exact H2|].
       exact (shots_NoDup _ k tail H1 H2). }
  destruct (run_cases W) as [(name & _ & _ & E)|(un & pw & Eu & Ep & _)].
  { exists 0%nat, []. unfold events. rewrite E. auto. }
  destruct (run_outline W un pw Eu Ep) as (script & code & Hin & HO).
  rewrite screenshotCalls_steps.
  destruct (outline_steps _ _ _ _ HO)
    as [(k & Hk & ->)|[(closing & -> & Hc)|(done & later & sp & closing & Hs & Hl & -> & Hsp & Hc)]].
  - exists 0%nat, []. destruct k as [|[|[|k]]]; [auto ..|lia].
  - script_cases Hin; closing_cases Hc;
      [exists 1%nat, [] | exists 1%nat, []
      |exists 4%nat, [] | exists 4%nat, []
      |exists 2%nat, [] | exists 2%nat, []
      |exists 2%nat, [] | exists 2%nat, []]; auto.
  - assert (shotsOf (done ++ catchSteps sp ++ closing)
            = shotsOf done ++ [screenshot "99-error"]) as ->.
    { unfold shotsOf. rewrite !flat_map_app. closing_cases Hc; reflexivity. }
    assert (shotsOf done = firstn (length (shotsOf done)) (shotsOf script)) as ->.
    { rewrite Hs. unfold shotsOf at 3. rewrite flat_map_app.
      symmetry. apply firstn_length_app. }
    remember (length (shotsOf done)) as n eqn:Hn. clear Hn.
    script_cases Hin.
    + exists n, [screenshot "99-error"]. auto.
    + exists n, [screenshot "99-error"]. auto.
    + exists (Nat.min n 2), [screenshot "99-error"].
      split; [right|auto]. rewrite <- firstn_firstn. reflexivity.
    + exists (Nat.min n 2), [screenshot "99-error"].
      split; [right|auto]. rewrite <- firstn_firstn. reflexivity.
Qed.

Lemma every_run_follows_a_script_witness :
  exists script code,
    In (script, code) (scripts "u" "p")
    /\ Outline script code (events happyWorld) (exitStatus happyWorld).
Proof.
  exact (every_run_follows_a_script happyWorld "u" "p" eq_refl eq_refl).
Defined.

(** ** Without chat credentials *)

Section Adding.

Variable R : list Event -> Prop.
Hypothesis HR : Additive R.

Lemma Adds_ret {A} (a : A) : Adds R (ret a).
Proof. intros st. exists []. rewrite app_nil_r. split; [reflexivity|apply HR]. Qed.

Lemma Adds_throw {A} (e : Exn) : Adds R (@throw A e).
Proof. intros st. exists []. rewrite app_nil_r. split; [reflexivity|apply HR]. Qed.

Lemma Adds_setExitCode c : Adds R (setExitCode c).
Proof. intros st. exists []. rewrite app_nil_r. split; [reflexivity|apply HR]. Qed.

Lemma Adds_bind {A B} (m : M A) (k : A -> M B) :
  Adds R m -> (forall a, Adds R (k a)) -> Adds R (bind m k).
Proof.
  intros Hm Hk st. unfold bind.
  destruct (Hm st) as (d1 & E1 & F1).
  destruct (m st) as [st1 [a|e]]; cbn [fst] in *.
  - destruct (Hk a st1) as (d2 & E2 & F2).
    exists (d1 ++ d2). rewrite E2, E1, app_assoc.
    split; [reflexivity|]. apply HR; assumption.
  - exists d1. split; assumption.
Qed.

Lemma Adds_try_catch {A} (m : M A) (h : Exn -> M A) :
  Adds R m -> (forall e, Adds R (h e)) -> Adds R (try_catch m h).
Proof.
  intros Hm Hh st. unfold try_catch.
  destruct (Hm st) as (d1 & E1 & F1).
  destruct (m st) as [st1 [a|e]]; cbn [fst] in *.
  - exists d1. split; assumption.
  - destruct (Hh e st1) as (d2 & E2 & F2).
    exists (d1 ++ d2). rewrite E2, E1, app_assoc.
    split; [reflexivity|]. apply HR; assumption.
Qed.

Lemma Adds_try_finally {A} (m : M A) (f : M unit) :
  Adds R m -> Adds R f -> Adds R (try_finally m f).
Proof.
  intros Hm Hf st. unfold try_finally.
  destruct (Hm st) as (d1 & E1 & F1).
  destruct (m st) as [st1 r]; cbn [fst] in *.
  destruct (Hf st1) as (d2 & E2 & F2).
  exists (d1 ++ d2).
  destruct (f st1) as [st2 [[]|e]]; cbn [fst] in *;
    rewrite E2, E1, app_assoc;
    (split; [reflexivity|]); apply HR; assumption.
Qed.

Lemma Adds_call W (o : Op) : (forall r, R [EvCall o r]) -> Adds R (call W o).
Proof. intros H st. eexists [_]. split; [reflexivity|apply H]. Qed.

Lemma Adds_read W (q : Query) : (forall v, R [EvObs q v]) -> Adds R (read W q).
Proof. intros H st. eexists [_]. split; [reflexivity|apply H]. Qed.

Lemma Adds_envOrThrow W name : Adds R (envOrThrow W name).
Proof.
  unfold envOrThrow. destruct (envTruthy W name); [apply Adds_ret|apply Adds_throw].
Qed.

End Adding.

Lemma skipsDelivery_Additive : Additive skipsDelivery.
Proof.
  split; [repeat split|].
  intros d1 d2 (F1 & R1 & L1) (F2 & R2 & L2). unfold skipsDelivery in *.
  unfold fetches, filesRead, logLines, notifications in *.
  rewrite !project_app, map_app, F1, F2, R1, R2, L1, L2. auto.
Qed.

(** Without the token or the channel id, a call of the Notifier leaves its
    entry and the warning, and nothing else. *)
Lemma Adds_notifyTelegram_unset W ok stage msg sp :
  envTruthy W "TELEGRAM_BOT_TOKEN" = None \/ envTruthy W "TELEGRAM_CHAT_ID" = None ->
  Adds skipsDelivery (notifyTelegram W ok stage msg sp).
Proof.
  intros H st. rewrite notifyTelegram_eq. cbn [fst trace]. eexists. split; [reflexivity|].
  pose proof (notifyEvents_Delivery W ok stage msg sp st) as HD.
  destruct HD; try (destruct H; congruence).
  repeat split.
Qed.

Ltac adds H :=
  repeat first
    [ apply Adds_ret; exact skipsDelivery_Additive
    | apply Adds_setExitCode; exact skipsDelivery_Additive
    | apply Adds_envOrThrow; exact skipsDelivery_Additive
    | apply Adds_notifyTelegram_unset; exact H
    | apply Adds_call; intro; repeat split
    | apply Adds_read; intro; repeat split
    | apply Adds_bind; [exact skipsDelivery_Additive| |intro]
    | apply Adds_try_catch; [exact skipsDelivery_Additive| |intro]
    | apply Adds_try_finally; [exact skipsDelivery_Additive| |]
    | match goal with
      | |- Adds _ (if ?b then _ else _) => destruct b
      end ].

(** When the token or the channel id of the chat is missing or empty, the
    whole run sends nothing to the chat service and reads no file, and its
    log lines are the warning of the Notifier, once for each
    notification. *)
Theorem silent_without_chat_credentials (W : World) :
  unset W "TELEGRAM_BOT_TOKEN" \/ unset W "TELEGRAM_CHAT_ID" ->
  fetches (events W) = []
  /\ filesRead (events W) = []
  /\ logLines (events W) = map (fun _ => warnUnset) (notifications (events W)).
Proof.
  intros H.
  assert (envTruthy W "TELEGRAM_BOT_TOKEN" = None \/ envTruthy W "TELEGRAM_CHAT_ID" = None)
    as H' by (destruct H as [H|H]; apply unset_envTruthy in H; auto).
  assert (Adds skipsDelivery (main W)) as HA.
  { unfold main, workflow, handler, teardown, swallow, humanCheckExit,
      loginSucceeded, loginFailed. cbv zeta. adds H'. }
  destruct (HA init) as (d & E & Hd). unfold events, run. rewrite E. exact Hd.
Qed.

Lemma silent_without_chat_credentials_witness :
  fetches (events quietWorld) = []
  /\ length (logLines (events quietWorld)) = 4%nat.
Proof.
  destruct (silent_without_chat_credentials quietWorld) as (H1 & _ & H2);
    [left; left; reflexivity|].
  split; [exact H1|]. rewrite H2, length_map. vm_compute. reflexivity.
Defined.

(** ** The wait at the submission *)

(** Closes a goal whose hypothesis [H] finds in the trace of a run that
    ended in the [catch] block a screenshot that was never written. *)
Ltac not_written W H E :=
  exfalso; conclude W E; rewrite E in H; cbn [fst trace] in H;
  read_trace_in H;
  match goal with Hc : Closed _ _ _ |- _ => destruct Hc end;
  repeat match type of H with
         | context [match ?s with _ => _ end] => is_var s; destruct s
         end;
  cbn in H; intuition discriminate.

(** Lines 97-100.  Once the screenshot [02-before-submit] is written, the
    wait for network idle and the click on the submit button are both
    made, the click right after the wait, however the wait ends: a wait
    that throws does not end the run. *)
Theorem idle_wait_never_aborts (W : World) :
  In (screenshot "02-before-submit") (screenshotsWritten (events W)) ->
  exists username password idle r rest,
    envTruthy W "LUNES_USERNAME" = Some username
    /\ envTruthy W "LUNES_PASSWORD" = Some password
    /\ events W
       = untilSubmit username password
           ++ [ EvCall (page_waitForLoadState 30000) idle;
                EvCall (locator_click loginBtn (Some 10000%Z)) r ]
           ++ rest.
Proof.
  unfold events. intros H.
  destruct (run_cases W)
    as [(name & _ & _ & E)|(un & pw & Eu & Ep & [(e & E)|[(e & E)|[(e & E)|E]]])];
    try (exfalso; rewrite E in H; cbn in H; intuition discriminate).
  exists un, pw.
  unfold workflow in E.
  gstep E. gcase W E; [|not_written W H E].
  gstep E. gcase W E; [|not_written W H E].
  destruct (0 <? v0)%nat eqn:Hc.
  { unfold humanCheckExit in E. gstep E. gcase W E; [|not_written W H E].
    gstep E. gstep E. not_written W H E. }
  apply Nat.ltb_ge in Hc. assert (v0 = 0)%nat as -> by lia.
  do 6 (gstep E; gcase W E; [|not_written W H E]).
  gstep E. rewrite guarded_call in E.
  match type of E with
  | context [summary (respond W ?h ?o)] =>
      remember (respond W h o) as idle eqn:Hidle; clear Hidle
  end.
  exists (@summary (page_waitForLoadState 30000) idle).
  match type of E with
  | context [match respond W ?h ?o with _ => _ end] =>
      destruct (respond W h o) as [[]|e]
  end; tidy E; rewrite E;
    [exists (Normal VUnit) | exists (Thrown e)];
    match goal with
    | |- context [trace (fst (?m ?st))] =>
        destruct (trace_Emits m st) as (d & ->); [unfold_blocks; emits|]
    end;
    exists d; (split; [exact Eu|]); (split; [exact Ep|]);
    cbn [trace]; unfold untilSubmit; repeat rewrite <- app_assoc; reflexivity.
Qed.

Lemma idle_wait_never_aborts_witness :
  exists idle r rest,
    events neverIdleWorld
    = untilSubmit "u" "p"
        ++ [ EvCall (page_waitForLoadState 30000) idle;
             EvCall (locator_click loginBtn (Some 10000%Z)) r ]
        ++ rest.
Proof.
  destruct (idle_wait_never_aborts neverIdleWorld)
    as (un & pw & idle & r & rest & Eu & Ep & E);
    [vm_compute; tauto|].
  vm_compute in Eu, Ep. injection Eu as <-. injection Ep as <-.
  exists idle, r, rest. exact E.
Defined.

(** ** The error marker *)

(** The error texts of the page are looked for only in a run whose login
    was not judged successful: a run that counts them has not notified a
    success and makes no call of the server, console, restart or command
    steps, whatever throws.  (A page that shows both the logged-in marker
    and an error text counts as a successful login; its error text is
    never read.) *)
Theorem error_marker_only_after_failure (W : World) (r : Outcome Value) :
  In (EvCall (locator_count errorMsgNode) r) (events W) ->
  successNotified (events W) = false
  /\ downstreamBegun (events W) = false.
Proof.
  intros H.
  destruct (run_cases W) as [(name & _ & _ & E)|(un & pw & Eu & Ep & _)].
  { unfold events in H. rewrite E in H. destruct H. }
  destruct (run_outline W un pw Eu Ep) as (script & code & Hin & HO).
  assert (In (Called (locator_count errorMsgNode)) (steps (events W))) as Hs.
  { apply in_split in H. destruct H as (l1 & l2 & ->).
    rewrite steps_app. apply in_or_app. right. left. reflexivity. }
  clear H. rewrite successNotified_steps, downstreamBegun_steps.
  destruct (outline_steps _ _ _ _ HO)
    as [(k & Hk & E)|[(closing & E & Hc)|(done & later & sp & closing & Hd & Hl & E & Hsp & Hc)]];
    rewrite E in Hs |- *; clear E.
  - exfalso. destruct k as [|[|[|k]]]; [cbn in Hs; intuition discriminate ..|lia].
  - script_cases Hin; closing_cases Hc;
      first [ split; reflexivity
            | exfalso; apply in_app_or in Hs; cbn in Hs; intuition discriminate ].
  - apply in_app_or in Hs. destruct Hs as [Hs|Hs];
      [|exfalso; closing_cases Hc; cbn in Hs; intuition discriminate].
    assert (In (Called (locator_count errorMsgNode)) script) as Hs'
      by (rewrite Hd; apply in_or_app; left; exact Hs).
    rewrite !existsb_app.
    script_cases Hin; try (exfalso; cbn in Hs'; intuition discriminate);
      (split;
       [ rewrite (existsb_initial_part _ _ _ _ Hd) by reflexivity
       | rewrite (existsb_initial_part _ _ _ _ Hd) by reflexivity ];
       closing_cases Hc; reflexivity).
Qed.

Lemma error_marker_only_after_failure_witness :
  successNotified (events rejectedWorld) = false
  /\ downstreamBegun (events rejectedWorld) = false.
Proof.
  apply (error_marker_only_after_failure rejectedWorld (Normal (VNum 1))).
  vm_compute. tauto.
Defined.

(** ** The test of the login path *)

Lemma toLowerCase_app (a b : string) :
  toLowerCase (a ++ b) = (toLowerCase a ++ toLowerCase b)%string.
Proof. induction a as [|c a IH]; [reflexivity|]. cbn. rewrite IH. reflexivity. Qed.

Lemma toLowerCase_split (s a b : string) :
  toLowerCase s = (a ++ b)%string ->
  exists a' b', s = (a' ++ b')%string /\ toLowerCase a' = a /\ toLowerCase b' = b.
Proof.
  revert s. induction a as [|c a IH]; intros s H.
  - exists ""%string, s. auto.
  - destruct s as [|c' s]; [discriminate H|].
    cbn in H. injection H as Hc H.
    destruct (IH s H) as (a' & b' & -> & Ha & Hb).
    exists (String c' a'), b'. cbn. rewrite Ha, Hc. auto.
Qed.

(** Line 108.  The test [/\/auth\/login/i] holds exactly when the URL
    has, somewhere, a part that reads [/auth/login] once its letters are
    put in lower case: at the end of the URL, in the middle of its path, or
    in its query. *)
Theorem stillOnLogin_spec (url : string) :
  stillOnLogin url = true
  <-> exists before found rest,
        url = (before ++ found ++ rest)%string
        /\ toLowerCase found = "/auth/login"%string.
Proof.
  unfold stillOnLogin. rewrite includes_spec. split.
  - intros (b & a & H).
    destruct (toLowerCase_split _ _ _ H) as (b' & r & -> & _ & Hr).
    destruct (toLowerCase_split _ _ _ Hr) as (f & a' & -> & Hf & _).
    exists b', f, a'. auto.
  - intros (b & f & a & -> & Hf).
    exists (toLowerCase b), (toLowerCase a).
    rewrite !toLowerCase_app, Hf. reflexivity.
Qed.

(** ** The closing calls *)

(** Lines 173-176.  Once the browser, its context and the page are there,
    the run ends with the [finally] block on every path: the
    trace is that of the [try] and its [catch], which close nothing,
    followed by the closing calls.  [context.close()] is called exactly
    once; [browser.close()] is called exactly once when that call returns,
    and not at all when it throws. *)
Theorem released_once_entered (W : World) :
  In (EvCall context_newPage (Normal VUnit)) (events W) ->
  (exists body cl r out,
      events W = body ++ cl
      /\ contextCloses body = [] /\ browserCloses body = []
      /\ Closed r cl out)
  /\ length (contextCloses (events W)) = 1%nat
  /\ (length (browserCloses (events W)) <= 1)%nat
  /\ (contextCloses (events W) = [Normal VUnit] <->
      length (browserCloses (events W)) = 1%nat).
Proof.
  intros H. unfold events in *.
  destruct (run_cases W)
    as [(name & _ & _ & E)|(un & pw & _ & _ & [(e & E)|[(e & E)|[(e & E)|E]]])];
    rewrite E in H |- *; clear E;
    try solve [exfalso; vm_compute in H; intuition discriminate].
  clear H. unfold guarded.
  destruct (try_finally_teardown W (try_catch (workflow W un pw) (handler W))
              {| trace := setupEvents; exitCode := None |}) as (cl & out & -> & Hcl).
  cbn [fst trace].
  set (body := trace (fst (try_catch (workflow W un pw) (handler W)
                             {| trace := setupEvents; exitCode := None |}))) in *.
  assert (contextCloses body = []) as Hc.
  { subst body. unfold contextCloses. rewrite project_Emits; [reflexivity|].
    unfold workflow. unfold_blocks. emits. }
  assert (browserCloses body = []) as Hb.
  { subst body. unfold browserCloses. rewrite project_Emits; [reflexivity|].
    unfold workflow. unfold_blocks. emits. }
  split; [exists body, cl; eauto 6|].
  unfold contextCloses, browserCloses in *. rewrite !project_app, Hc, Hb.
  destruct Hcl; cbn; repeat split; auto; discriminate.
Qed.

Lemma released_once_witness :
  length (contextCloses (events happyWorld)) = 1%nat
  /\ length (browserCloses (events closeThrowsWorld)) = 0%nat.
Proof.
  destruct (released_once_entered happyWorld) as (_ & H1 & _).
  { vm_compute. tauto. }
  destruct (released_once_entered closeThrowsWorld) as (_ & _ & H2 & H3).
  { vm_compute. tauto. }
  split; [exact H1|].
  destruct (length (browserCloses (events closeThrowsWorld))) as [|[|k]];
    [reflexivity | | inversion H2 as [|? H4]; inversion H4].
  destruct H3 as [_ H3]. specialize (H3 eq_refl). vm_compute in H3. discriminate H3.
Defined.
